(** * A cuckoo filter with 16-bit fingerprints (cuckoo.go)

    Shallow embedding of the Go package [cuckoo] and the properties of its
    operations.  Unsigned machine integers are integers of [Z] with their
    wrap-around written out, buckets are lists of slots updated by index,
    and the operations on a [*Filter] are programs of a small state and
    error monad: the state holds the filter, the package variable
    [tempBytes] and the position in the stream of random numbers; an error
    is a run-time panic of Go (index out of range, division by zero,
    [rand.Intn] of a non-positive bound). *)

From Stdlib Require Import ZArith Lia Bool.
From Stdlib Require Import Strings.Byte.
From stdpp Require Import base list.

Local Open Scope Z_scope.

(** ** Machine integers and bytes *)

Definition wrap32 (z : Z) : Z := z mod 2 ^ 32.

Definition byte_val (b : byte) : Z := Z.of_N (Byte.to_N b).

(** The conversion [byte(v)] of Go keeps the low eight bits. *)
Definition byte_of (z : Z) : byte :=
  match Byte.of_N (Z.to_N (z mod 256)) with
  | Some b => b
  | None => x00
  end.

(** [binary.BigEndian.Uint16] panics on a slice shorter than two bytes. *)
Definition be_uint16 (xb : list byte) : option Z :=
  match xb with
  | b0 :: b1 :: _ => Some (Z.lor (byte_val b1) (Z.shiftl (byte_val b0) 8))
  | _ => None
  end.

(** [binary.BigEndian.PutUint16] into a slice of length two. *)
Definition be_put_uint16 (v : Z) : list byte :=
  [byte_of (Z.shiftr v 8); byte_of v].

(** ** The hash capability

    [hash.Hash32] as the filter uses it: [Reset], [Write], [Sum32] in a row,
    that is the 32-bit digest of a byte sequence. *)

Class Hash32 := { sum32 : list byte -> Z }.

(** [Sum32] returns a [uint32]. *)
Class Hash32Range (H : Hash32) : Prop :=
  sum32_range : forall x, 0 <= sum32 x < 2 ^ 32.

(** ** Constants and data *)

Definition defaultBucketSize : Z := 4.
Definition defaultTotalBuckets : Z := Z.shiftl 4 20.
Definition defaultMaxKicks : Z := 500.
Definition seed : Z := 59053.

Abbreviation fingerprint := Z (only parsing).
Abbreviation bucket := (list Z) (only parsing).

Definition emptyFingerprint : fingerprint := 0.

Record Filter := mkFilter {
  count : Z;
  buckets : list bucket;
  bucketSize : Z;
  totalBuckets : Z;
  maxKicks : Z
}.

(** The state of a run: the filter behind the pointer, the package variable
    [tempBytes], the number of calls of [rand.Intn] so far, and a ghost
    counter of the calls of [replaceItem] (the relocation steps). *)
Record World := mkWorld {
  filt : Filter;
  tempBytes : list byte;
  draws : nat;
  swaps : nat
}.

Definition set_buckets (bs : list bucket) (f : Filter) : Filter :=
  mkFilter (count f) bs (bucketSize f) (totalBuckets f) (maxKicks f).

Definition set_count (c : Z) (f : Filter) : Filter :=
  mkFilter c (buckets f) (bucketSize f) (totalBuckets f) (maxKicks f).

(** ** Construction *)

Definition initBuckets (totalBuckets bucketSize : Z) : list bucket :=
  replicate (Z.to_nat totalBuckets) (replicate (Z.to_nat bucketSize) emptyFingerprint).

Definition newFilter (tb bs : Z) : Filter :=
  mkFilter 0 (initBuckets tb bs) bs tb defaultMaxKicks.

(** The loop of [nextPowerOf2] from [i] on, [fuel] iterations left
    ([i] runs from 2 to 31). *)
Fixpoint nextPowerOf2_from (fuel : nat) (i v n : Z) : Z :=
  match fuel with
  | O => n
  | S fuel' =>
      if i <? 32 then
        let n' := wrap32 (Z.shiftl 1 i) in
        if n' >=? v then n' else nextPowerOf2_from fuel' (i + 1) v n'
      else n
  end.

Definition nextPowerOf2 (v : Z) : Z := nextPowerOf2_from 30 2 v 0.

Definition NewFilter (count : Z) : Filter :=
  let b := nextPowerOf2 count / defaultBucketSize in
  newFilter b defaultBucketSize.

Definition StdFilter : Filter := newFilter defaultTotalBuckets defaultBucketSize.

Definition initWorld (f : Filter) : World :=
  mkWorld f [x00; x00] 0 0.

(** ** Operations on one bucket

    Each returns the result of the Go function and the bucket as the
    function leaves it (the slice is updated in place). *)

Fixpoint deleteFrom (b : bucket) (fp : fingerprint) : bool * bucket :=
  match b with
  | [] => (false, [])
  | s :: b' =>
      if negb (s =? fp) then
        let '(ok, b'') := deleteFrom b' fp in (ok, s :: b'')
      else (true, emptyFingerprint :: b')
  end.

Fixpoint containsIn (b : bucket) (fp : fingerprint) : bool :=
  match b with
  | [] => false
  | s :: b' => if s =? fp then true else containsIn b' fp
  end.

Fixpoint addToBucket (b : bucket) (fp : fingerprint) : bool * bucket :=
  match b with
  | [] => (false, [])
  | s :: b' =>
      if negb (s =? emptyFingerprint) then
        let '(ok, b'') := addToBucket b' fp in (ok, s :: b'')
      else (true, fp :: b')
  end.

(** ** The monad of runs *)

Definition M (A : Type) : Type := World -> option (A * World).

Definition ret {A} (a : A) : M A := fun w => Some (a, w).

Definition bind {A B} (m : M A) (k : A -> M B) : M B :=
  fun w => match m w with
           | Some (a, w') => k a w'
           | None => None
           end.

Definition panic {A} : M A := fun _ => None.

Notation "'let*' p ':=' m 'in' k" := (bind m (fun p => k))
  (at level 10, p pattern, m at level 100, k at level 200).

Definition getFilter : M Filter := fun w => Some (filt w, w).

Definition putFilter (f : Filter) : M unit :=
  fun w => Some (tt, mkWorld f (tempBytes w) (draws w) (swaps w)).

Definition putTempBytes (t : list byte) : M unit :=
  fun w => Some (tt, mkWorld (filt w) t (draws w) (swaps w)).

Definition tick : M unit :=
  fun w => Some (tt, mkWorld (filt w) (tempBytes w) (draws w) (S (swaps w))).

Definition lift {A} (o : option A) : M A :=
  match o with
  | Some a => ret a
  | None => panic
  end.

(** [f.buckets[i]]: panics when [i] is out of range. *)
Definition bucketAt (i : Z) : M bucket :=
  let* f := getFilter in
  if i <? 0 then panic else lift (buckets f !! Z.to_nat i).

Definition setBucketAt (i : Z) (b : bucket) : M unit :=
  let* f := getFilter in
  putFilter (set_buckets (<[Z.to_nat i := b]> (buckets f)) f).

(** A bucket operation applied to the slice [f.buckets[i]]. *)
Definition onBucket (op : bucket -> fingerprint -> bool * bucket)
    (i : Z) (fp : fingerprint) : M bool :=
  let* b := bucketAt i in
  let '(ok, b') := op b fp in
  let* _ := setBucketAt i b' in
  ret ok.

Section Operations.

Context {H : Hash32}.

(** The stream of the random generator: [rnd n] is the raw value behind the
    [n]-th call of [rand.Intn]. *)
Variable rnd : nat -> Z.

(** [rand.Intn n] panics unless [0 < n]. *)
Definition Intn (n : Z) : M Z :=
  fun w =>
    if n <=? 0 then None
    else Some (rnd (draws w) mod n,
               mkWorld (filt w) (tempBytes w) (S (draws w)) (swaps w)).

Definition hashOf (x : list byte) : Z * list byte :=
  let h := sum32 x in
  (h, [byte_of (Z.shiftr h 24); byte_of (Z.shiftr h 16);
       byte_of (Z.shiftr h 8); byte_of h]).

(** [xb[:2]] panics on a slice shorter than two bytes, as [Uint16] does. *)
Definition fingerprintOf (xb : list byte) : option (fingerprint * Z) :=
  match be_uint16 xb with
  | Some fp => let '(fph, _) := hashOf (take 2 xb) in Some (fp, fph)
  | None => None
  end.

(** [%] panics on a zero divisor. *)
Definition indicesOf (xh fph totalBuckets : Z) : option (Z * Z) :=
  if totalBuckets =? 0 then None
  else
    let i1 := xh mod totalBuckets in
    let i2 := Z.lxor i1 fph mod totalBuckets in
    Some (i1, i2).

Definition replaceItem (i : Z) (fp : fingerprint) : M (Z * fingerprint) :=
  let* _ := tick in
  let* b := bucketAt i in
  let* k := Intn (Z.of_nat (length b)) in
  let* rfp := lift (b !! Z.to_nat k) in
  let* _ := setBucketAt i (<[Z.to_nat k := fp]> b) in
  let* _ := putTempBytes (be_put_uint16 fp) in
  let* f := getFilter in
  let '(rfph, _) := hashOf (be_put_uint16 fp) in
  if totalBuckets f =? 0 then panic
  else ret (Z.lxor i rfph mod totalBuckets f, rfp).

(** The loop [for k = 0; k < f.maxKicks; k++] of [insert], with [n]
    iterations left. *)
Fixpoint insert_loop (n : nat) (ri : Z) (fp : fingerprint) : M bool :=
  match n with
  | O => ret false
  | S n' =>
      let* (ri', fp') := replaceItem ri fp in
      let* ok := onBucket addToBucket ri' fp' in
      if ok then ret true else insert_loop n' ri' fp'
  end.

(** The deferred [f.count++] and [f.count--]. *)
Definition bump (d : Z) (ok : bool) : M unit :=
  if ok then
    let* f := getFilter in putFilter (set_count (wrap32 (count f + d)) f)
  else ret tt.

Definition insert (x : list byte) : M bool :=
  let '(xh, xb) := hashOf x in
  let* (fp, fph) := lift (fingerprintOf xb) in
  let* f := getFilter in
  let* (i1, i2) := lift (indicesOf xh fph (totalBuckets f)) in
  let* ok :=
    (let* a1 := onBucket addToBucket i1 fp in
     if a1 then ret true
     else
       let* a2 := onBucket addToBucket i2 fp in
       if a2 then ret true
       else
         let* r := Intn 2 in
         let ri := if r =? 0 then i1 else i2 in
         insert_loop (Z.to_nat (maxKicks f)) ri fp) in
  let* _ := bump 1 ok in
  ret ok.

Definition lookup (x : list byte) : M bool :=
  let '(xh, xb) := hashOf x in
  let* (fp, fph) := lift (fingerprintOf xb) in
  let* f := getFilter in
  let* (i1, i2) := lift (indicesOf xh fph (totalBuckets f)) in
  let* b1 := bucketAt i1 in
  if containsIn b1 fp then ret true
  else
    let* b2 := bucketAt i2 in
    if containsIn b2 fp then ret true else ret false.

Definition deleteItem (x : list byte) : M bool :=
  let '(xh, xb) := hashOf x in
  let* (fp, fph) := lift (fingerprintOf xb) in
  let* f := getFilter in
  let* (i1, i2) := lift (indicesOf xh fph (totalBuckets f)) in
  let* ok :=
    (let* d1 := onBucket deleteFrom i1 fp in
     if d1 then ret true
     else
       let* d2 := onBucket deleteFrom i2 fp in
       if d2 then ret true else ret false) in
  let* _ := bump (-1) ok in
  ret ok.

Definition check (x : list byte) : option (list byte) :=
  match x with
  | [] => None
  | [b] => Some [x00; b]
  | _ => Some x
  end.

Definition Lookup (x : list byte) : M bool :=
  match check x with
  | None => ret false
  | Some x' => lookup x'
  end.

Definition Insert (x : list byte) : M bool :=
  match check x with
  | None => ret false
  | Some x' => insert x'
  end.

Definition InsertUnique (x : list byte) : M bool :=
  match check x with
  | None => ret false
  | Some x' =>
      let* found := Lookup x' in
      if found then ret true else insert x'
  end.

Definition Delete (x : list byte) : M bool :=
  match check x with
  | None => ret false
  | Some x' => deleteItem x'
  end.

Definition Count : M Z :=
  let* f := getFilter in ret (count f).

End Operations.

(** ** The hash the constructors plug in

    [StdFilter] and [NewFilter] build the filter over
    [murmur3.New32WithSeed(seed)] of the package
    github.com/spaolacci/murmur3, an implementation of MurmurHash3 x86_32.
    The package is no part of this repository; its digest is written here
    after the published algorithm (block mixing over little-endian words,
    the tail of up to three bytes, the length, the final avalanche), so that
    the filter can be run on the inputs a caller of the public functions can
    give it. *)

Module Murmur3.

Definition c1_32 : Z := 0xcc9e2d51.
Definition c2_32 : Z := 0x1b873593.

Definition rotl32 (x r : Z) : Z :=
  wrap32 (Z.lor (Z.shiftl x r) (Z.shiftr x (32 - r))).

Definition mul32 (a b : Z) : Z := wrap32 (a * b).

Definition mix_k1 (k1 : Z) : Z := mul32 (rotl32 (mul32 k1 c1_32) 15) c2_32.

Fixpoint bmix (h1 : Z) (p : list byte) : Z * list byte :=
  match p with
  | b0 :: b1 :: b2 :: b3 :: rest =>
      let k1 := Z.lor (byte_val b0)
                 (Z.lor (Z.shiftl (byte_val b1) 8)
                   (Z.lor (Z.shiftl (byte_val b2) 16) (Z.shiftl (byte_val b3) 24))) in
      let h1 := Z.lxor h1 (mix_k1 k1) in
      let h1 := rotl32 h1 13 in
      let h1 := wrap32 (h1 * 4 + h1 + 0xe6546b64) in
      bmix h1 rest
  | tail => (h1, tail)
  end.

Definition tail_k1 (tail : list byte) : Z :=
  match tail with
  | [t0] => byte_val t0
  | [t0; t1] => Z.lxor (Z.shiftl (byte_val t1) 8) (byte_val t0)
  | [t0; t1; t2] =>
      Z.lxor (Z.lxor (Z.shiftl (byte_val t2) 16) (Z.shiftl (byte_val t1) 8))
             (byte_val t0)
  | _ => 0
  end.

Definition fmix32 (h : Z) : Z :=
  let h := Z.lxor h (Z.shiftr h 16) in
  let h := mul32 h 0x85ebca6b in
  let h := Z.lxor h (Z.shiftr h 13) in
  let h := mul32 h 0xc2b2ae35 in
  Z.lxor h (Z.shiftr h 16).

Definition sum32_seeded (sd : Z) (x : list byte) : Z :=
  let '(h1, tail) := bmix sd x in
  let h1 := match tail with
            | [] => h1
            | _ => Z.lxor h1 (mix_k1 (tail_k1 tail))
            end in
  let h1 := Z.lxor h1 (wrap32 (Z.of_nat (length x))) in
  fmix32 h1.

End Murmur3.

#[export] Instance murmur3 : Hash32 :=
  {| sum32 := Murmur3.sum32_seeded seed |}.

(** ** Vocabulary of the properties *)

(** A filter as [newFilter] builds it over a positive number of buckets of
    a positive size; every operation keeps it so. *)
Record wf (f : Filter) : Prop := mkWf {
  wf_total : 0 < totalBuckets f;
  wf_size : 0 < bucketSize f;
  wf_kicks : 0 <= maxKicks f;
  wf_buckets : Z.of_nat (length (buckets f)) = totalBuckets f;
  wf_slots : Forall (fun b : list Z => Z.of_nat (length b) = bucketSize f) (buckets f)
}.

(** The number of occupied slots of a bucket and of a table. *)
Fixpoint occupied (b : bucket) : Z :=
  match b with
  | [] => 0
  | s :: b' => (if s =? emptyFingerprint then 0 else 1) + occupied b'
  end.

Fixpoint occupancy (bs : list bucket) : Z :=
  match bs with
  | [] => 0
  | b :: bs' => occupied b + occupancy bs'
  end.

(** The fingerprint and the two candidate buckets of a checked item, as the
    first three lines of [insert], [lookup] and [deleteItem] compute them. *)
Definition locate {H : Hash32} (x : list byte) (f : Filter)
    : option (fingerprint * Z * Z) :=
  let '(xh, xb) := hashOf x in
  match fingerprintOf xb with
  | Some (fp, fph) =>
      match indicesOf xh fph (totalBuckets f) with
      | Some (i1, i2) => Some (fp, i1, i2)
      | None => None
      end
  | None => None
  end.

(** The world after the slice [f.buckets[i]] got the contents [b]. *)
Definition with_bucket (i : Z) (b : bucket) (w : World) : World :=
  mkWorld (set_buckets (<[Z.to_nat i := b]> (buckets (filt w))) (filt w))
          (tempBytes w) (draws w) (swaps w).

Definition with_count (c : Z) (w : World) : World :=
  mkWorld (set_count c (filt w)) (tempBytes w) (draws w) (swaps w).

(** The world after [replaceItem] put [fp] into slot [k] of bucket [i],
    whose contents were [b]. *)
Definition after_swap (i : Z) (k : nat) (fp : Z) (b : list Z) (w : World) : World :=
  mkWorld (set_buckets (<[Z.to_nat i := <[k := fp]> b]> (buckets (filt w))) (filt w))
          (be_put_uint16 fp) (S (draws w)) (S (swaps w)).

(** What an operation leaves alone. *)
Definition frame (w w' : World) : Prop :=
  bucketSize (filt w') = bucketSize (filt w)
  /\ totalBuckets (filt w') = totalBuckets (filt w)
  /\ maxKicks (filt w') = maxKicks (filt w).

(** The world after one call of [rand.Intn]. *)
Definition after_draw (w : World) : World :=
  mkWorld (filt w) (tempBytes w) (S (draws w)) (swaps w).

(** The fingerprint the operations derive from an item. *)
Definition item_fp {H : Hash32} (x : list byte) : option fingerprint :=
  match check x with
  | Some x' =>
      match fingerprintOf (hashOf x').2 with
      | Some (fp, _) => Some fp
      | None => None
      end
  | None => None
  end.

(** Calls of the four public operations, and a run of calls from left to
    right with the results they return. *)
Inductive op : Type :=
  | OpInsert (x : list byte)
  | OpInsertUnique (x : list byte)
  | OpLookup (x : list byte)
  | OpDelete (x : list byte).

Definition op_item (o : op) : list byte :=
  match o with
  | OpInsert x | OpInsertUnique x | OpLookup x | OpDelete x => x
  end.

Definition step {H : Hash32} (rnd : nat -> Z) (o : op) : M bool :=
  match o with
  | OpInsert x => Insert rnd x
  | OpInsertUnique x => InsertUnique rnd x
  | OpLookup x => Lookup x
  | OpDelete x => Delete x
  end.

Fixpoint run {H : Hash32} (rnd : nat -> Z) (ops : list op) : M (list bool) :=
  match ops with
  | [] => ret []
  | o :: ops' =>
      let* r := step rnd o in
      let* rs := run rnd ops' in
      ret (r :: rs)
  end.

(** The counter after a change by [d]: [f.count++] and [f.count--] wrap. *)
Definition bumped (c d : Z) : Z := if d =? 0 then c else wrap32 (c + d).

(** The change of the counter a call accounts for, given its result. *)
Definition accounted (o : op) (ok : bool) (d : Z) : Prop :=
  match o with
  | OpInsert _ => d = if ok then 1 else 0
  | OpDelete _ => d = if ok then -1 else 0
  | OpLookup _ => d = 0
  | OpInsertUnique _ => ok = true /\ d = 0 \/ d = if ok then 1 else 0
  end.

Definition is_insert (o : op) : bool :=
  match o with OpInsert _ => true | _ => false end.

Definition is_delete (o : op) : bool :=
  match o with OpDelete _ => true | _ => false end.

Definition is_insert_unique (o : op) : bool :=
  match o with OpInsertUnique _ => true | _ => false end.

(** The number of calls of one kind that returned [true]. *)
Fixpoint successes (kind : op -> bool) (ops : list op) (res : list bool) : Z :=
  match ops, res with
  | o :: ops', r :: res' =>
      (if kind o && r then 1 else 0) + successes kind ops' res'
  | _, _ => 0
  end.

Definition sumZ (ds : list Z) : Z := foldr Z.add 0 ds.

(** The number of slots of the table. *)
Definition capacity (f : Filter) : Z := bucketSize f * totalBuckets f.

(** What a program returns from a world, the final world left out. *)
Definition outcome {A} (m : M A) (w : World) : option A :=
  match m w with
  | Some (a, _) => Some a
  | None => None
  end.

(** The fingerprint as the specification words it: the big-endian 16-bit
    value of the first two bytes of the checked item. *)
Definition spec_fingerprint (x : list byte) : option fingerprint :=
  match check x with
  | Some x' => be_uint16 x'
  | None => None
  end.

(** The number of slots of a bucket that hold a fingerprint. *)
Fixpoint copies (b : bucket) (fp : fingerprint) : Z :=
  match b with
  | [] => 0
  | s :: b' => (if s =? fp then 1 else 0) + copies b' fp
  end.

Definition bucket_of (f : Filter) (i : Z) : bucket :=
  default [] (buckets f !! Z.to_nat i).

(** The copies of a fingerprint in its candidate buckets [i1] and [i2]
    (one bucket when the two indices agree). *)
Definition held (f : Filter) (fp : fingerprint) (i1 i2 : Z) : Z :=
  copies (bucket_of f i1) fp
  + (if i1 =? i2 then 0 else copies (bucket_of f i2) fp).

(** The second table is the first with one slot that held [fp] set to the
    sentinel, and nothing else changed. *)
Definition cleared_one (fp : fingerprint) (bs bs' : list bucket) : Prop :=
  exists (i k : nat) (b : list Z),
    bs !! i = Some b /\ b !! k = Some fp
    /\ bs' = <[i := <[k := emptyFingerprint]> b]> bs.

(** Every slot of the table satisfies [P]. *)
Definition slots_all (P : Z -> Prop) (f : Filter) : Prop :=
  Forall (Forall P) (buckets f).

(** The fingerprint of a checked item, the hash of the fingerprint and the
    two candidate indices, written from the digest of the item alone: the
    upper half of the digest, the digest of the two high bytes of the
    digest, the digest modulo the number of buckets, and that index xor the
    fingerprint hash modulo the number of buckets. *)
Definition digest_fp {H : Hash32} (x : list byte) : fingerprint :=
  Z.shiftr (sum32 x) 16.

Definition digest_fph {H : Hash32} (x : list byte) : Z :=
  sum32 [byte_of (Z.shiftr (sum32 x) 24); byte_of (Z.shiftr (sum32 x) 16)].

Definition digest_i1 {H : Hash32} (x : list byte) (f : Filter) : Z :=
  sum32 x mod totalBuckets f.

Definition digest_i2 {H : Hash32} (x : list byte) (f : Filter) : Z :=
  Z.lxor (digest_i1 x f) (digest_fph x) mod totalBuckets f.

(** *** Concrete inputs

    A random generator that always answers 0, an item whose murmur3 digest
    is 55432, below 2^16, so that its fingerprint is the sentinel 0, and the
    one-bucket filter of [NewFilter(1)] after the items "a", "b", "c" and
    "d" went in. *)
Definition rnd0 : nat -> Z := fun _ => 0.

Definition zero_item : list byte := [xce; x44].

Definition item_a : list byte := [x61].
Definition item_b : list byte := [x62].
Definition item_c : list byte := [x63].
Definition item_d : list byte := [x64].
Definition item_e : list byte := [x65].

Definition fresh1 : World := initWorld (NewFilter 1).

Definition full1 : World :=
  mkWorld (mkFilter 4 [[58217; 62543; 60981; 38554]] 4 1 500) [x00; x00] 0 0.

Definition item_ab : list byte := [x61; x62].

(** The one-bucket filter after one and after two insertions of "a". *)
Definition once1 : World := with_count 1 (with_bucket 0 [58217; 0; 0; 0] fresh1).

Definition twice1 : World := with_count 2 (with_bucket 0 [58217; 58217; 0; 0] once1).

(** A random generator that answers 0, 1, 2, ..., and the two-bucket filter
    of [NewFilter(8)] after the items "a" to "f" went in: bucket 0 is full
    and holds the fingerprints of "b", "d", "e" and "f". *)
Definition rnd_seq : nat -> Z := fun n => Z.of_nat n.

Definition item_f : list byte := [x66].
Definition item_g : list byte := [x67].

Definition six2 : World :=
  mkWorld (mkFilter 6 [[62543; 38554; 29344; 294]; [58217; 60981; 0; 0]] 4 2 500)
          [x00; x00] 0 0.

Definition item_0a : list byte := [x00; x61].

(** An item whose fingerprint is 24930, the number that the two bytes of
    "ab" read. *)
Definition item_vej : list byte := [x76; x65; x6a].

(** ** Facts on machine integers *)

Lemma wrap32_range z : 0 <= wrap32 z < 2 ^ 32.
Proof. unfold wrap32. apply Z.mod_pos_bound. lia. Qed.

Lemma lxor_below a b n :
  0 <= n -> 0 <= a < 2 ^ n -> 0 <= b < 2 ^ n -> 0 <= Z.lxor a b < 2 ^ n.
Proof.
  intros Hn [Ha0 Ha] [Hb0 Hb].
  assert (H0 : 0 <= Z.lxor a b) by (apply Z.lxor_nonneg; tauto).
  split; [exact H0|].
  destruct (Z.eq_dec (Z.lxor a b) 0) as [->|Hne].
  - apply Z.pow_pos_nonneg; lia.
  - assert (Hpos : 0 < n).
    { destruct (Z.eq_dec n 0) as [->|]; [|lia].
      exfalso. apply Hne. change (2 ^ 0) with 1 in *.
      assert (a = 0) as -> by lia. assert (b = 0) as -> by lia. reflexivity. }
    apply Z.log2_lt_pow2; [lia|].
    eapply Z.le_lt_trans; [apply Z.log2_lxor; assumption|].
    apply Z.max_lub_lt.
    + destruct (Z.eq_dec a 0) as [->|]; [simpl; lia|apply Z.log2_lt_pow2; lia].
    + destruct (Z.eq_dec b 0) as [->|]; [simpl; lia|apply Z.log2_lt_pow2; lia].
Qed.

Lemma shiftr_below a k n : 0 <= k -> 0 <= a < 2 ^ n -> 0 <= Z.shiftr a k < 2 ^ n.
Proof.
  intros Hk [Ha0 Ha]. rewrite Z.shiftr_div_pow2 by lia.
  assert (0 < 2 ^ k) by (apply Z.pow_pos_nonneg; lia).
  split; [apply Z.div_pos; lia|].
  eapply Z.le_lt_trans; [|exact Ha].
  apply Z.div_le_upper_bound; nia.
Qed.

Lemma fmix32_range h : 0 <= h < 2 ^ 32 -> 0 <= Murmur3.fmix32 h < 2 ^ 32.
Proof.
  intros Hh. unfold Murmur3.fmix32, Murmur3.mul32.
  apply lxor_below; [lia|apply wrap32_range|].
  apply shiftr_below; [lia|apply wrap32_range].
Qed.

Lemma bmix_range p : forall h, 0 <= h < 2 ^ 32 -> 0 <= fst (Murmur3.bmix h p) < 2 ^ 32.
Proof.
  induction p as [p IH] using (induction_ltof1 _ (@length byte)); unfold ltof in IH.
  intros h Hh.
  destruct p as [|b0 [|b1 [|b2 [|b3 rest]]]]; simpl; try exact Hh.
  apply IH; [simpl; lia|apply wrap32_range].
Qed.

Lemma murmur3_range sd x :
  0 <= sd < 2 ^ 32 -> 0 <= Murmur3.sum32_seeded sd x < 2 ^ 32.
Proof.
  intros Hsd. unfold Murmur3.sum32_seeded.
  pose proof (bmix_range x sd Hsd) as Hb.
  destruct (Murmur3.bmix sd x) as [h1 tail]. simpl in Hb.
  apply fmix32_range.
  apply lxor_below; [lia| |apply wrap32_range].
  destruct tail; [exact Hb|].
  apply lxor_below; [lia|exact Hb|apply wrap32_range].
Qed.

Lemma seed_range : 0 <= seed < 2 ^ 32.
Proof. unfold seed. lia. Qed.

#[export] Instance murmur3_in_range : Hash32Range murmur3.
Proof. intros x. apply murmur3_range, seed_range. Qed.

(** The digest agrees with published values of MurmurHash3 x86_32: the
    empty input under the seeds 0, 1 and 0xffffffff, and inputs of one to
    five bytes, with and without a tail. *)
Lemma murmur3_reference_values :
  Murmur3.sum32_seeded 0 [] = 0
  /\ Murmur3.sum32_seeded 1 [] = 0x514E28B7
  /\ Murmur3.sum32_seeded 0xffffffff [] = 0x81F16F39
  /\ Murmur3.sum32_seeded 0 [x00; x00; x00; x00] = 0x2362F9DE
  /\ Murmur3.sum32_seeded 0 [x21; x43; x65; x87] = 0xF55B516B
  /\ Murmur3.sum32_seeded 0 [x21; x43; x65] = 0x7E4A8634
  /\ Murmur3.sum32_seeded 0 [x21; x43] = 0xA0F7B07A
  /\ Murmur3.sum32_seeded 0 [x21] = 0x72661CF4
  /\ Murmur3.sum32_seeded 0x9747b28c [x61; x62; x63; x64] = 0xF0478627
  /\ Murmur3.sum32_seeded 0x9747b28c [x61; x62; x63] = 0xC84A62DD
  /\ Murmur3.sum32_seeded 0 [x68; x65; x6c; x6c; x6f] = 0x248bfa47.
Proof. vm_compute. repeat split. Qed.

(** ** Bytes *)

Lemma byte_val_of z : byte_val (byte_of z) = z mod 256.
Proof.
  unfold byte_val, byte_of.
  assert (Hr : 0 <= z mod 256 < 256) by (apply Z.mod_pos_bound; lia).
  destruct (Byte.of_N (Z.to_N (z mod 256))) as [b|] eqn:E.
  - apply Byte.to_of_N in E. rewrite E. lia.
  - apply Byte.of_N_None_iff in E. lia.
Qed.

Lemma testbit_above h n m :
  0 <= n -> 0 <= h < 2 ^ n -> n <= m -> Z.testbit h m = false.
Proof.
  intros Hn [Hh0 Hh] Hm.
  destruct (Z.eq_dec h 0) as [->|Hne]; [apply Z.bits_0|].
  apply Z.bits_above_log2; [lia|].
  assert (Z.log2 h < n) by (apply Z.log2_lt_pow2; lia). lia.
Qed.

(** The two high bytes of a 32-bit digest, read back as a big-endian
    16-bit number, are its upper half. *)
Lemma be_uint16_high h :
  0 <= h < 2 ^ 32 ->
  Z.lor (byte_val (byte_of (Z.shiftr h 16)))
        (Z.shiftl (byte_val (byte_of (Z.shiftr h 24))) 8) = Z.shiftr h 16.
Proof.
  intros Hh. rewrite !byte_val_of.
  change 256 with (2 ^ 8).
  apply Z.bits_inj'. intros n Hn.
  rewrite Z.lor_spec.
  destruct (Z_lt_dec n 8) as [Hlt|Hge].
  - rewrite Z.mod_pow2_bits_low by lia.
    rewrite Z.shiftl_spec_low by lia.
    apply orb_false_r.
  - rewrite Z.mod_pow2_bits_high by lia.
    rewrite Z.shiftl_spec by lia.
    rewrite !Z.shiftr_spec by lia.
    destruct (Z_lt_dec (n - 8) 8) as [Hlt'|Hge'].
    + rewrite Z.mod_pow2_bits_low by lia.
      rewrite Z.shiftr_spec by lia.
      simpl. f_equal. lia.
    + rewrite Z.mod_pow2_bits_high by lia.
      simpl. symmetry. apply (testbit_above h 32); lia.
Qed.

(** ** The monad *)

Lemma bind_Some {A B} (m : M A) (k : A -> M B) w r :
  bind m k w = Some r <-> exists a w1, m w = Some (a, w1) /\ k a w1 = Some r.
Proof.
  unfold bind. split.
  - destruct (m w) as [[a w1]|]; [|discriminate]. eauto.
  - intros (a & w1 & -> & Hk). exact Hk.
Qed.

Lemma bind_eq {A B} (m : M A) (k : A -> M B) w a w1 :
  m w = Some (a, w1) -> bind m k w = k a w1.
Proof. unfold bind. intros ->. reflexivity. Qed.

(** ** Buckets *)

Lemma addToBucket_length b fp : length (addToBucket b fp).2 = length b.
Proof.
  induction b as [|s b IH]; simpl; [reflexivity|].
  destruct (s =? emptyFingerprint); simpl; [reflexivity|].
  destruct (addToBucket b fp) as [ok b'']. simpl in *. congruence.
Qed.

Lemma deleteFrom_length b fp : length (deleteFrom b fp).2 = length b.
Proof.
  induction b as [|s b IH]; simpl; [reflexivity|].
  destruct (s =? fp); simpl; [reflexivity|].
  destruct (deleteFrom b fp) as [ok b'']. simpl in *. congruence.
Qed.

(** [addToBucket] succeeds exactly when the bucket has an empty slot. *)
Lemma addToBucket_ok b fp : (addToBucket b fp).1 = containsIn b emptyFingerprint.
Proof.
  induction b as [|s b IH]; simpl; [reflexivity|].
  destruct (s =? emptyFingerprint); simpl; [reflexivity|].
  destruct (addToBucket b fp) as [ok b'']. exact IH.
Qed.

Lemma addToBucket_full b fp :
  containsIn b emptyFingerprint = false -> (addToBucket b fp).2 = b.
Proof.
  induction b as [|s b IH]; simpl; [reflexivity|].
  destruct (s =? emptyFingerprint); simpl; [discriminate|].
  intros Hf. specialize (IH Hf).
  destruct (addToBucket b fp) as [ok b'']. simpl in *. congruence.
Qed.

Lemma addToBucket_contains b fp :
  containsIn b emptyFingerprint = true -> containsIn (addToBucket b fp).2 fp = true.
Proof.
  induction b as [|s b IH]; simpl; [discriminate|].
  destruct (s =? emptyFingerprint) eqn:E; simpl.
  - intros _. rewrite Z.eqb_refl. reflexivity.
  - intros Hc. specialize (IH Hc).
    destruct (addToBucket b fp) as [ok b'']. simpl in *.
    rewrite IH. destruct (s =? fp); reflexivity.
Qed.

(** [deleteFrom] succeeds exactly when the bucket holds the fingerprint. *)
Lemma deleteFrom_ok b fp : (deleteFrom b fp).1 = containsIn b fp.
Proof.
  induction b as [|s b IH]; simpl; [reflexivity|].
  destruct (s =? fp); simpl; [reflexivity|].
  destruct (deleteFrom b fp) as [ok b'']. exact IH.
Qed.

Lemma deleteFrom_absent b fp :
  containsIn b fp = false -> (deleteFrom b fp).2 = b.
Proof.
  induction b as [|s b IH]; simpl; [reflexivity|].
  destruct (s =? fp); simpl; [discriminate|].
  intros Hf. specialize (IH Hf).
  destruct (deleteFrom b fp) as [ok b'']. simpl in *. congruence.
Qed.

(** Deleting the empty fingerprint writes the sentinel over itself. *)
Lemma deleteFrom_empty b : (deleteFrom b emptyFingerprint).2 = b.
Proof.
  induction b as [|s b IH]; simpl; [reflexivity|].
  destruct (s =? emptyFingerprint) eqn:E; simpl.
  - apply Z.eqb_eq in E. subst s. reflexivity.
  - destruct (deleteFrom b emptyFingerprint) as [ok b'']. simpl in *. congruence.
Qed.

(** ** Worlds and well-formed filters *)

Lemma with_bucket_id i b w :
  buckets (filt w) !! Z.to_nat i = Some b -> with_bucket i b w = w.
Proof.
  intros Hb. destruct w as [[c bs s t k] tb d sw]. simpl in *.
  unfold with_bucket, set_buckets. simpl.
  rewrite list_insert_id by exact Hb. reflexivity.
Qed.

Lemma wf_index f i :
  wf f -> 0 <= i < totalBuckets f ->
  exists b, buckets f !! Z.to_nat i = Some b /\ Z.of_nat (length b) = bucketSize f.
Proof.
  intros Hwf Hi.
  destruct (lookup_lt_is_Some_2 (buckets f) (Z.to_nat i)) as [b Hb].
  { pose proof (wf_buckets f Hwf). lia. }
  exists b. split; [exact Hb|].
  exact (proj1 (Forall_lookup _ _) (wf_slots f Hwf) _ _ Hb).
Qed.

Lemma wf_with_bucket i b b' w :
  wf (filt w) -> buckets (filt w) !! Z.to_nat i = Some b ->
  length b' = length b -> wf (filt (with_bucket i b' w)).
Proof.
  intros Hwf Hb Hlen. destruct Hwf as [H1 H2 H3 H4 H5].
  constructor; simpl; try assumption.
  - rewrite length_insert. exact H4.
  - apply Forall_insert; [exact H5|].
    rewrite Hlen. exact (proj1 (Forall_lookup _ _) H5 _ _ Hb).
Qed.

Lemma wf_with_count c w : wf (filt w) -> wf (filt (with_count c w)).
Proof. intros [H1 H2 H3 H4 H5]. constructor; assumption. Qed.

Lemma bucketAt_eq i w b :
  0 <= i -> buckets (filt w) !! Z.to_nat i = Some b -> bucketAt i w = Some (b, w).
Proof.
  intros Hi Hb. unfold bucketAt, bind, getFilter.
  destruct (i <? 0) eqn:E; [apply Z.ltb_lt in E; lia|].
  rewrite Hb. reflexivity.
Qed.

Lemma onBucket_eq op i fp w b :
  0 <= i -> buckets (filt w) !! Z.to_nat i = Some b ->
  onBucket op i fp w = Some ((op b fp).1, with_bucket i (op b fp).2 w).
Proof.
  intros Hi Hb. unfold onBucket.
  rewrite (bind_eq _ _ _ _ _ (bucketAt_eq i w b Hi Hb)).
  destruct (op b fp) as [ok b']. reflexivity.
Qed.

(** ** Occupancy *)

Lemma occupied_bound b : 0 <= occupied b <= Z.of_nat (length b).
Proof.
  induction b as [|s b IH]; simpl occupied; simpl length; [lia|].
  destruct (s =? emptyFingerprint); lia.
Qed.

Lemma occupied_insert b k s v :
  b !! k = Some s ->
  occupied (<[k := v]> b) =
  occupied b - (if s =? emptyFingerprint then 0 else 1)
             + (if v =? emptyFingerprint then 0 else 1).
Proof.
  revert k. induction b as [|s0 b IH]; intros k Hk; [discriminate|].
  destruct k as [|k]; simpl in *.
  - injection Hk as ->. lia.
  - rewrite (IH k Hk). lia.
Qed.

Lemma occupancy_insert (bs : list (list Z)) i b b' :
  bs !! i = Some b ->
  occupancy (<[i := b']> bs) = occupancy bs - occupied b + occupied b'.
Proof.
  revert i. induction bs as [|b0 bs IH]; intros i Hi; [discriminate|].
  destruct i as [|i]; simpl in *.
  - injection Hi as ->. lia.
  - rewrite (IH i Hi). lia.
Qed.

Lemma occupancy_bound (bs : list (list Z)) n :
  Forall (fun b : list Z => Z.of_nat (length b) = n) bs ->
  0 <= occupancy bs <= n * Z.of_nat (length bs).
Proof.
  induction 1 as [|b bs Hb _ IH]; simpl occupancy; simpl length; [lia|].
  pose proof (occupied_bound b). nia.
Qed.

Lemma full_lookup b k s :
  containsIn b emptyFingerprint = false -> b !! k = Some s -> s <> emptyFingerprint.
Proof.
  revert k. induction b as [|s0 b IH]; intros k Hf Hk; [discriminate|].
  simpl in Hf. destruct (s0 =? emptyFingerprint) eqn:E; [discriminate|].
  destruct k as [|k]; simpl in Hk.
  - injection Hk as <-. apply Z.eqb_neq. exact E.
  - exact (IH k Hf Hk).
Qed.

Lemma full_occupied b :
  containsIn b emptyFingerprint = false -> occupied b = Z.of_nat (length b).
Proof.
  induction b as [|s b IH]; simpl containsIn; simpl occupied; simpl length; [reflexivity|].
  destruct (s =? emptyFingerprint); [discriminate|]. intros Hf. rewrite (IH Hf). lia.
Qed.

Lemma addToBucket_occupied b fp :
  containsIn b emptyFingerprint = true ->
  occupied (addToBucket b fp).2 =
  occupied b + (if fp =? emptyFingerprint then 0 else 1).
Proof.
  induction b as [|s b IH]; simpl; [discriminate|].
  destruct (s =? emptyFingerprint) eqn:E; simpl.
  - intros _. lia.
  - intros Hc. specialize (IH Hc).
    destruct (addToBucket b fp) as [ok b'']. simpl in *. rewrite E. lia.
Qed.

Lemma deleteFrom_occupied b fp :
  containsIn b fp = true ->
  occupied (deleteFrom b fp).2 =
  occupied b - (if fp =? emptyFingerprint then 0 else 1).
Proof.
  induction b as [|s b IH]; simpl; [discriminate|].
  destruct (s =? fp) eqn:E; simpl.
  - intros _. apply Z.eqb_eq in E. subst s. lia.
  - intros Hc. specialize (IH Hc).
    destruct (deleteFrom b fp) as [ok b'']. simpl in *. lia.
Qed.

Section Facts.

Context {H : Hash32}.
Variable rnd : nat -> Z.

Lemma fingerprintOf_digest x :
  exists fp fph, fingerprintOf (hashOf x).2 = Some (fp, fph).
Proof. unfold fingerprintOf, hashOf. simpl. eauto. Qed.

Lemma locate_wf x f :
  wf f ->
  exists fp i1 i2, locate x f = Some (fp, i1, i2)
    /\ 0 <= i1 < totalBuckets f /\ 0 <= i2 < totalBuckets f.
Proof.
  intros Hwf. pose proof (wf_total f Hwf) as Htb.
  unfold locate, fingerprintOf, hashOf, indicesOf. simpl.
  destruct (totalBuckets f =? 0) eqn:E; [apply Z.eqb_eq in E; lia|].
  eexists _, _, _. split; [reflexivity|].
  split; apply Z.mod_pos_bound; lia.
Qed.

Lemma locate_inv x f fp i1 i2 :
  locate x f = Some (fp, i1, i2) ->
  exists fph, fingerprintOf (hashOf x).2 = Some (fp, fph)
    /\ indicesOf (hashOf x).1 fph (totalBuckets f) = Some (i1, i2).
Proof.
  unfold locate. destruct (hashOf x) as [xh xb]. simpl.
  destruct (fingerprintOf xb) as [[fp' fph]|]; [|discriminate].
  destruct (indicesOf xh fph (totalBuckets f)) as [[j1 j2]|] eqn:E; [|discriminate].
  intros [= -> -> ->]. exists fph. split; [reflexivity|exact E].
Qed.

Lemma lookup_eq x w fp i1 i2 b1 b2 :
  locate x (filt w) = Some (fp, i1, i2) -> 0 <= i1 -> 0 <= i2 ->
  buckets (filt w) !! Z.to_nat i1 = Some b1 ->
  buckets (filt w) !! Z.to_nat i2 = Some b2 ->
  lookup x w = Some (containsIn b1 fp || containsIn b2 fp, w).
Proof.
  intros Hloc H1 H2 Hb1 Hb2.
  destruct (locate_inv _ _ _ _ _ Hloc) as (fph & Hfp & Hidx).
  unfold lookup. destruct (hashOf x) as [xh xb]. simpl in *.
  rewrite Hfp. simpl. unfold bind at 1. simpl.
  unfold bind at 1. simpl. rewrite Hidx. simpl.
  unfold bind at 1. simpl.
  rewrite (bind_eq _ _ _ _ _ (bucketAt_eq i1 w b1 H1 Hb1)).
  destruct (containsIn b1 fp); [reflexivity|].
  rewrite (bind_eq _ _ _ _ _ (bucketAt_eq i2 w b2 H2 Hb2)).
  destruct (containsIn b2 fp); reflexivity.
Qed.

Lemma bump_eq d ok w :
  bump d ok w =
  Some (tt, if ok then with_count (wrap32 (count (filt w) + d)) w else w).
Proof. destruct ok; reflexivity. Qed.

(** The prologue shared by [insert], [lookup] and [deleteItem]. *)
Ltac prologue Hloc :=
  let fph := fresh "fph" in
  let Hfp := fresh "Hfp" in
  let Hidx := fresh "Hidx" in
  destruct (locate_inv _ _ _ _ _ Hloc) as (fph & Hfp & Hidx);
  match goal with |- context [hashOf ?x] => destruct (hashOf x) as [? ?] end;
  simpl in Hfp, Hidx |- *;
  rewrite Hfp; simpl; unfold bind at 1; simpl;
  unfold bind at 1; simpl; rewrite Hidx; simpl;
  unfold bind at 1; simpl.

Lemma deleteItem_first x w fp i1 i2 b1 :
  locate x (filt w) = Some (fp, i1, i2) -> 0 <= i1 ->
  buckets (filt w) !! Z.to_nat i1 = Some b1 ->
  containsIn b1 fp = true ->
  deleteItem x w =
  Some (true, with_count (wrap32 (count (filt w) + -1))
                (with_bucket i1 (deleteFrom b1 fp).2 w)).
Proof.
  intros Hloc H1 Hb1 Hc. unfold deleteItem. prologue Hloc.
  unfold bind at 1. unfold bind at 1.
  rewrite (onBucket_eq deleteFrom i1 fp w b1 H1 Hb1).
  rewrite deleteFrom_ok, Hc. reflexivity.
Qed.

Lemma deleteItem_second x w fp i1 i2 b1 b2 :
  locate x (filt w) = Some (fp, i1, i2) -> 0 <= i1 -> 0 <= i2 ->
  buckets (filt w) !! Z.to_nat i1 = Some b1 ->
  buckets (filt w) !! Z.to_nat i2 = Some b2 ->
  containsIn b1 fp = false -> containsIn b2 fp = true ->
  deleteItem x w =
  Some (true, with_count (wrap32 (count (filt w) + -1))
                (with_bucket i2 (deleteFrom b2 fp).2 w)).
Proof.
  intros Hloc H1 H2 Hb1 Hb2 Hc1 Hc2. unfold deleteItem. prologue Hloc.
  unfold bind at 1. unfold bind at 1.
  rewrite (onBucket_eq deleteFrom i1 fp w b1 H1 Hb1).
  rewrite deleteFrom_ok, Hc1, (deleteFrom_absent _ _ Hc1), (with_bucket_id _ _ _ Hb1).
  unfold bind at 1.
  rewrite (onBucket_eq deleteFrom i2 fp w b2 H2 Hb2).
  rewrite deleteFrom_ok, Hc2. reflexivity.
Qed.

Lemma deleteItem_none x w fp i1 i2 b1 b2 :
  locate x (filt w) = Some (fp, i1, i2) -> 0 <= i1 -> 0 <= i2 ->
  buckets (filt w) !! Z.to_nat i1 = Some b1 ->
  buckets (filt w) !! Z.to_nat i2 = Some b2 ->
  containsIn b1 fp = false -> containsIn b2 fp = false ->
  deleteItem x w = Some (false, w).
Proof.
  intros Hloc H1 H2 Hb1 Hb2 Hc1 Hc2. unfold deleteItem. prologue Hloc.
  unfold bind at 1. unfold bind at 1.
  rewrite (onBucket_eq deleteFrom i1 fp w b1 H1 Hb1).
  rewrite deleteFrom_ok, Hc1, (deleteFrom_absent _ _ Hc1), (with_bucket_id _ _ _ Hb1).
  unfold bind at 1.
  rewrite (onBucket_eq deleteFrom i2 fp w b2 H2 Hb2).
  rewrite deleteFrom_ok, Hc2, (deleteFrom_absent _ _ Hc2), (with_bucket_id _ _ _ Hb2).
  reflexivity.
Qed.

Lemma insert_first x w fp i1 i2 b1 :
  locate x (filt w) = Some (fp, i1, i2) -> 0 <= i1 ->
  buckets (filt w) !! Z.to_nat i1 = Some b1 ->
  containsIn b1 emptyFingerprint = true ->
  insert rnd x w =
  Some (true, with_count (wrap32 (count (filt w) + 1))
                (with_bucket i1 (addToBucket b1 fp).2 w)).
Proof.
  intros Hloc H1 Hb1 Hc. unfold insert. prologue Hloc.
  unfold bind at 1. unfold bind at 1.
  rewrite (onBucket_eq addToBucket i1 fp w b1 H1 Hb1).
  rewrite addToBucket_ok, Hc. reflexivity.
Qed.

Lemma insert_second x w fp i1 i2 b1 b2 :
  locate x (filt w) = Some (fp, i1, i2) -> 0 <= i1 -> 0 <= i2 ->
  buckets (filt w) !! Z.to_nat i1 = Some b1 ->
  buckets (filt w) !! Z.to_nat i2 = Some b2 ->
  containsIn b1 emptyFingerprint = false ->
  containsIn b2 emptyFingerprint = true ->
  insert rnd x w =
  Some (true, with_count (wrap32 (count (filt w) + 1))
                (with_bucket i2 (addToBucket b2 fp).2 w)).
Proof.
  intros Hloc H1 H2 Hb1 Hb2 Hc1 Hc2. unfold insert. prologue Hloc.
  unfold bind at 1. unfold bind at 1.
  rewrite (onBucket_eq addToBucket i1 fp w b1 H1 Hb1).
  rewrite addToBucket_ok, Hc1, (addToBucket_full _ _ Hc1), (with_bucket_id _ _ _ Hb1).
  unfold bind at 1.
  rewrite (onBucket_eq addToBucket i2 fp w b2 H2 Hb2).
  rewrite addToBucket_ok, Hc2. reflexivity.
Qed.

(** Both candidate buckets full: the eviction loop decides. *)
Lemma insert_evict x w fp i1 i2 b1 b2 :
  locate x (filt w) = Some (fp, i1, i2) -> 0 <= i1 -> 0 <= i2 ->
  buckets (filt w) !! Z.to_nat i1 = Some b1 ->
  buckets (filt w) !! Z.to_nat i2 = Some b2 ->
  containsIn b1 emptyFingerprint = false ->
  containsIn b2 emptyFingerprint = false ->
  insert rnd x w =
  (let* ok := (let* r := Intn rnd 2 in
               insert_loop rnd (Z.to_nat (maxKicks (filt w)))
                 (if r =? 0 then i1 else i2) fp) in
   let* _ := bump 1 ok in
   ret ok) w.
Proof.
  intros Hloc H1 H2 Hb1 Hb2 Hc1 Hc2. unfold insert. prologue Hloc.
  unfold bind at 1. unfold bind at 1.
  rewrite (onBucket_eq addToBucket i1 fp w b1 H1 Hb1).
  rewrite addToBucket_ok, Hc1, (addToBucket_full _ _ Hc1), (with_bucket_id _ _ _ Hb1).
  unfold bind at 1.
  rewrite (onBucket_eq addToBucket i2 fp w b2 H2 Hb2).
  rewrite addToBucket_ok, Hc2, (addToBucket_full _ _ Hc2), (with_bucket_id _ _ _ Hb2).
  reflexivity.
Qed.

Lemma replaceItem_eq i fp w b :
  0 <= i -> buckets (filt w) !! Z.to_nat i = Some b ->
  0 < Z.of_nat (length b) -> totalBuckets (filt w) <> 0 ->
  let k := Z.to_nat (rnd (draws w) mod Z.of_nat (length b)) in
  exists rfp, b !! k = Some rfp /\
    replaceItem rnd i fp w =
    Some ((Z.lxor i (sum32 (be_put_uint16 fp)) mod totalBuckets (filt w), rfp),
          after_swap i k fp b w).
Proof.
  intros Hi Hb Hlen Htb k.
  assert (Hk : 0 <= rnd (draws w) mod Z.of_nat (length b) < Z.of_nat (length b))
    by (apply Z.mod_pos_bound; lia).
  destruct (lookup_lt_is_Some_2 b k) as [rfp Hr]; [unfold k; lia|].
  exists rfp. split; [exact Hr|].
  unfold replaceItem.
  unfold bind at 1. simpl.
  erewrite bind_eq; [|apply bucketAt_eq; [exact Hi|exact Hb]].
  unfold bind at 1. unfold Intn. simpl.
  destruct (Z.of_nat (length b) <=? 0) eqn:E; [apply Z.leb_le in E; lia|].
  fold k. unfold bind at 1. rewrite Hr. simpl.
  unfold bind at 1. simpl. unfold bind at 1. simpl. unfold bind at 1. simpl.
  destruct (totalBuckets (filt w) =? 0) eqn:E2; [apply Z.eqb_eq in E2; lia|].
  reflexivity.
Qed.

Lemma wf_after_swap i k fp b w :
  wf (filt w) -> buckets (filt w) !! Z.to_nat i = Some b ->
  wf (filt (after_swap i k fp b w)).
Proof.
  intros Hwf Hb.
  apply (wf_with_bucket i b (<[k := fp]> b) w Hwf Hb).
  apply length_insert.
Qed.

Lemma occupancy_with_bucket i b b' w :
  buckets (filt w) !! Z.to_nat i = Some b ->
  occupancy (buckets (filt (with_bucket i b' w))) =
  occupancy (buckets (filt w)) - occupied b + occupied b'.
Proof. intros Hb. simpl. apply occupancy_insert, Hb. Qed.

Lemma occupancy_after_swap i k fp b rfp w :
  buckets (filt w) !! Z.to_nat i = Some b -> b !! k = Some rfp ->
  fp <> emptyFingerprint -> rfp <> emptyFingerprint ->
  occupancy (buckets (filt (after_swap i k fp b w))) = occupancy (buckets (filt w)).
Proof.
  intros Hb Hr Hfp Hrfp. simpl.
  rewrite (occupancy_insert _ _ _ _ Hb), (occupied_insert _ _ _ _ Hr).
  apply Z.eqb_neq in Hrfp, Hfp. rewrite Hrfp, Hfp. lia.
Qed.

Lemma insert_loop_total n : forall ri fp w,
  wf (filt w) -> 0 <= ri < totalBuckets (filt w) ->
  exists ok w',
    insert_loop rnd n ri fp w = Some (ok, w')
    /\ wf (filt w') /\ frame w w'
    /\ count (filt w') = count (filt w)
    /\ (swaps w <= swaps w' <= swaps w + n)%nat
    /\ (n <> O -> swaps w < swaps w')%nat
    /\ (ok = false -> swaps w' = swaps w + n)%nat
    /\ (fp <> emptyFingerprint ->
        (forall b, buckets (filt w) !! Z.to_nat ri = Some b ->
                   containsIn b emptyFingerprint = false) ->
        occupancy (buckets (filt w')) =
        occupancy (buckets (filt w)) + (if ok then 1 else 0)).
Proof.
  induction n as [|n IH]; intros ri fp w Hwf Hri.
  - exists false, w. simpl. split; [reflexivity|]. split; [exact Hwf|].
    unfold frame. repeat split; try reflexivity; try lia.
  - destruct (wf_index _ _ Hwf Hri) as (b & Hb & Hlen).
    pose proof (wf_size _ Hwf) as Hsz. pose proof (wf_total _ Hwf) as Htb.
    destruct (replaceItem_eq ri fp w b) as (rfp & Hr & Hrep);
      [lia|exact Hb|lia|lia|].
    set (k := Z.to_nat (rnd (draws w) mod Z.of_nat (length b))) in *.
    set (j := Z.lxor ri (sum32 (be_put_uint16 fp)) mod totalBuckets (filt w)) in *.
    set (w1 := after_swap ri k fp b w) in *.
    assert (Hwf1 : wf (filt w1)) by (apply wf_after_swap; assumption).
    assert (Hj : 0 <= j < totalBuckets (filt w1))
      by (apply Z.mod_pos_bound; exact Htb).
    destruct (wf_index _ _ Hwf1 Hj) as (bj & Hbj & Hlenj).
    pose proof (onBucket_eq addToBucket j rfp w1 bj (proj1 Hj) Hbj) as Hadd.
    assert (Hocc1 : fp <> emptyFingerprint ->
                    (forall b0, buckets (filt w) !! Z.to_nat ri = Some b0 ->
                       containsIn b0 emptyFingerprint = false) ->
                    occupancy (buckets (filt w1)) = occupancy (buckets (filt w))
                    /\ rfp <> emptyFingerprint).
    { intros Hfp Hfull. pose proof (full_lookup _ _ _ (Hfull b Hb) Hr) as Hrfp.
      split; [|exact Hrfp].
      exact (occupancy_after_swap ri k fp b rfp w Hb Hr Hfp Hrfp). }
    assert (Hsw1 : swaps w1 = S (swaps w)) by reflexivity.
    assert (Hc1 : count (filt w1) = count (filt w)) by reflexivity.
    assert (Hfr1 : frame w w1) by (unfold frame; auto).
    simpl insert_loop. rewrite (bind_eq _ _ _ _ _ Hrep).
    rewrite (bind_eq _ _ _ _ _ Hadd).
    rewrite addToBucket_ok.
    destruct (containsIn bj emptyFingerprint) eqn:Hc.
    + exists true, (with_bucket j (addToBucket bj rfp).2 w1).
      split; [reflexivity|].
      split; [apply (wf_with_bucket j bj); [exact Hwf1|exact Hbj|apply addToBucket_length]|].
      split; [exact Hfr1|].
      split; [exact Hc1|].
      change (swaps (with_bucket j (addToBucket bj rfp).2 w1)) with (swaps w1).
      split; [lia|]. split; [lia|]. split; [discriminate|].
      intros Hfp Hfull. destruct (Hocc1 Hfp Hfull) as [Ho Hrfp].
      rewrite (occupancy_with_bucket _ _ _ _ Hbj), (addToBucket_occupied _ _ Hc), Ho.
      apply Z.eqb_neq in Hrfp. rewrite Hrfp. lia.
    + rewrite (addToBucket_full _ _ Hc), (with_bucket_id _ _ _ Hbj).
      destruct (IH j rfp w1 Hwf1 Hj)
        as (ok & w' & Hrun & Hwf' & Hfr & Hcnt & Hsw & _ & Hfalse & Hocc).
      exists ok, w'. split; [exact Hrun|]. split; [exact Hwf'|].
      split; [destruct Hfr as (F1 & F2 & F3), Hfr1 as (G1 & G2 & G3);
              unfold frame; repeat split; congruence|].
      split; [congruence|].
      split; [lia|]. split; [lia|].
      split; [intros E; specialize (Hfalse E); lia|].
      intros Hfp Hfull. destruct (Hocc1 Hfp Hfull) as [Ho Hrfp].
      rewrite Hocc; [rewrite Ho; reflexivity|exact Hrfp|].
      intros b0 Hb0. congruence.
Qed.

End Facts.

(** ** Totality and bookkeeping *)

Section Totality.

Context {H : Hash32}.
Variable rnd : nat -> Z.

Lemma Intn_eq n w :
  0 < n -> Intn rnd n w = Some (rnd (draws w) mod n, after_draw w).
Proof.
  intros Hn. unfold Intn.
  destruct (n <=? 0) eqn:E; [apply Z.leb_le in E; lia|reflexivity].
Qed.

Lemma frame_refl w : frame w w.
Proof. unfold frame. auto. Qed.

Lemma frame_trans w1 w2 w3 : frame w1 w2 -> frame w2 w3 -> frame w1 w3.
Proof. unfold frame. intros (A1 & A2 & A3) (B1 & B2 & B3). repeat split; congruence. Qed.

(** [insert] returns on every well-formed filter, after at most [maxKicks]
    relocation steps; the counter moves with the result, and so does the
    occupancy when the fingerprint is not the sentinel. *)
Lemma insert_total x w :
  wf (filt w) ->
  exists ok w',
    insert rnd x w = Some (ok, w')
    /\ wf (filt w') /\ frame w w'
    /\ count (filt w') = (if ok then wrap32 (count (filt w) + 1) else count (filt w))
    /\ (swaps w <= swaps w' <= swaps w + Z.to_nat (maxKicks (filt w)))%nat
    /\ (ok = false -> swaps w' = swaps w + Z.to_nat (maxKicks (filt w)))%nat
    /\ (forall fp i1 i2, locate x (filt w) = Some (fp, i1, i2) ->
        fp <> emptyFingerprint ->
        occupancy (buckets (filt w')) =
        occupancy (buckets (filt w)) + (if ok then 1 else 0)).
Proof.
  intros Hwf.
  destruct (locate_wf x _ Hwf) as (fp & i1 & i2 & Hloc & Hi1 & Hi2).
  destruct (wf_index _ _ Hwf Hi1) as (b1 & Hb1 & Hl1).
  destruct (wf_index _ _ Hwf Hi2) as (b2 & Hb2 & Hl2).
  destruct (containsIn b1 emptyFingerprint) eqn:Hc1;
    [|destruct (containsIn b2 emptyFingerprint) eqn:Hc2].
  - exists true. eexists.
    split; [apply (insert_first rnd x w fp i1 i2 b1 Hloc (proj1 Hi1) Hb1 Hc1)|].
    split; [apply wf_with_count, (wf_with_bucket i1 b1);
            [exact Hwf|exact Hb1|apply addToBucket_length]|].
    split; [unfold frame; simpl; auto|]. split; [reflexivity|].
    split; [simpl; lia|]. split; [discriminate|].
    intros fp' j1 j2 Hloc' Hfp. rewrite Hloc in Hloc'. injection Hloc' as <- <- <-.
    change (buckets (filt (with_count ?c ?w0))) with (buckets (filt w0)).
    rewrite (occupancy_with_bucket _ _ _ _ Hb1), (addToBucket_occupied _ _ Hc1).
    apply Z.eqb_neq in Hfp. rewrite Hfp. lia.
  - exists true. eexists.
    split; [apply (insert_second rnd x w fp i1 i2 b1 b2 Hloc (proj1 Hi1) (proj1 Hi2)
                     Hb1 Hb2 Hc1 Hc2)|].
    split; [apply wf_with_count, (wf_with_bucket i2 b2);
            [exact Hwf|exact Hb2|apply addToBucket_length]|].
    split; [unfold frame; simpl; auto|]. split; [reflexivity|].
    split; [simpl; lia|]. split; [discriminate|].
    intros fp' j1 j2 Hloc' Hfp. rewrite Hloc in Hloc'. injection Hloc' as <- <- <-.
    change (buckets (filt (with_count ?c ?w0))) with (buckets (filt w0)).
    rewrite (occupancy_with_bucket _ _ _ _ Hb2), (addToBucket_occupied _ _ Hc2).
    apply Z.eqb_neq in Hfp. rewrite Hfp. lia.
  - rewrite (insert_evict rnd x w fp i1 i2 b1 b2 Hloc (proj1 Hi1) (proj1 Hi2)
               Hb1 Hb2 Hc1 Hc2).
    set (r := rnd (draws w) mod 2).
    set (ri := if r =? 0 then i1 else i2).
    assert (Hri : 0 <= ri < totalBuckets (filt (after_draw w)))
      by (unfold ri; destruct (r =? 0); assumption).
    destruct (insert_loop_total rnd (Z.to_nat (maxKicks (filt w))) ri fp
                (after_draw w) Hwf Hri)
      as (ok & w' & Hrun & Hwf' & Hfr & Hcnt & Hsw & _ & Hfalse & Hocc).
    exists ok, (if ok then with_count (wrap32 (count (filt w') + 1)) w' else w').
    split.
    { unfold bind at 1. unfold bind at 1.
      rewrite (Intn_eq 2 w) by lia. fold r. fold ri. rewrite Hrun.
      unfold bind. rewrite bump_eq. reflexivity. }
    simpl in Hcnt, Hsw, Hfalse, Hocc.
    assert (Hfull : forall b, buckets (filt w) !! Z.to_nat ri = Some b ->
                      containsIn b emptyFingerprint = false).
    { intros b Hb. unfold ri in Hb. destruct (r =? 0); congruence. }
    destruct ok.
    + split; [apply wf_with_count, Hwf'|]. split; [exact Hfr|].
      split; [simpl; rewrite Hcnt; reflexivity|].
      split; [simpl; lia|]. split; [discriminate|].
      intros fp' j1 j2 Hloc' Hfp. rewrite Hloc in Hloc'. injection Hloc' as <- <- <-.
      exact (Hocc Hfp Hfull).
    + split; [exact Hwf'|]. split; [exact Hfr|]. split; [exact Hcnt|].
      split; [lia|]. split; [intros _; apply Hfalse; reflexivity|].
      intros fp' j1 j2 Hloc' Hfp. rewrite Hloc in Hloc'. injection Hloc' as <- <- <-.
      exact (Hocc Hfp Hfull).
Qed.

Lemma lookup_total x w :
  wf (filt w) -> exists ok, lookup x w = Some (ok, w).
Proof.
  intros Hwf.
  destruct (locate_wf x _ Hwf) as (fp & i1 & i2 & Hloc & Hi1 & Hi2).
  destruct (wf_index _ _ Hwf Hi1) as (b1 & Hb1 & _).
  destruct (wf_index _ _ Hwf Hi2) as (b2 & Hb2 & _).
  eexists. apply (lookup_eq x w fp i1 i2 b1 b2 Hloc (proj1 Hi1) (proj1 Hi2) Hb1 Hb2).
Qed.

Lemma deleteItem_total x w :
  wf (filt w) ->
  exists ok w',
    deleteItem x w = Some (ok, w')
    /\ wf (filt w') /\ frame w w'
    /\ count (filt w') = (if ok then wrap32 (count (filt w) + -1) else count (filt w))
    /\ swaps w' = swaps w
    /\ (forall fp i1 i2, locate x (filt w) = Some (fp, i1, i2) ->
        fp <> emptyFingerprint ->
        occupancy (buckets (filt w')) =
        occupancy (buckets (filt w)) + (if ok then -1 else 0)).
Proof.
  intros Hwf.
  destruct (locate_wf x _ Hwf) as (fp & i1 & i2 & Hloc & Hi1 & Hi2).
  destruct (wf_index _ _ Hwf Hi1) as (b1 & Hb1 & Hl1).
  destruct (wf_index _ _ Hwf Hi2) as (b2 & Hb2 & Hl2).
  destruct (containsIn b1 fp) eqn:Hc1; [|destruct (containsIn b2 fp) eqn:Hc2].
  - exists true. eexists.
    split; [apply (deleteItem_first x w fp i1 i2 b1 Hloc (proj1 Hi1) Hb1 Hc1)|].
    split; [apply wf_with_count, (wf_with_bucket i1 b1);
            [exact Hwf|exact Hb1|apply deleteFrom_length]|].
    split; [unfold frame; simpl; auto|]. split; [reflexivity|].
    split; [reflexivity|].
    intros fp' j1 j2 Hloc' Hfp. rewrite Hloc in Hloc'. injection Hloc' as <- <- <-.
    change (buckets (filt (with_count ?c ?w0))) with (buckets (filt w0)).
    rewrite (occupancy_with_bucket _ _ _ _ Hb1), (deleteFrom_occupied _ _ Hc1).
    apply Z.eqb_neq in Hfp. rewrite Hfp. lia.
  - exists true. eexists.
    split; [apply (deleteItem_second x w fp i1 i2 b1 b2 Hloc (proj1 Hi1) (proj1 Hi2)
                     Hb1 Hb2 Hc1 Hc2)|].
    split; [apply wf_with_count, (wf_with_bucket i2 b2);
            [exact Hwf|exact Hb2|apply deleteFrom_length]|].
    split; [unfold frame; simpl; auto|]. split; [reflexivity|].
    split; [reflexivity|].
    intros fp' j1 j2 Hloc' Hfp. rewrite Hloc in Hloc'. injection Hloc' as <- <- <-.
    change (buckets (filt (with_count ?c ?w0))) with (buckets (filt w0)).
    rewrite (occupancy_with_bucket _ _ _ _ Hb2), (deleteFrom_occupied _ _ Hc2).
    apply Z.eqb_neq in Hfp. rewrite Hfp. lia.
  - exists false, w.
    split; [apply (deleteItem_none x w fp i1 i2 b1 b2 Hloc (proj1 Hi1) (proj1 Hi2)
                     Hb1 Hb2 Hc1 Hc2)|].
    split; [exact Hwf|]. split; [apply frame_refl|].
    repeat split. intros; lia.
Qed.

Lemma check_checked x x' : check x = Some x' -> check x' = Some x'.
Proof.
  destruct x as [|a [|b x]]; simpl; intros E; inversion E; reflexivity.
Qed.

Lemma item_fp_locate x x' f fp i1 i2 :
  check x = Some x' -> locate x' f = Some (fp, i1, i2) -> item_fp x = Some fp.
Proof.
  intros Hc Hloc. destruct (locate_inv _ _ _ _ _ Hloc) as (fph & Hfp & _).
  unfold item_fp. rewrite Hc, Hfp. reflexivity.
Qed.

(** Every call returns on a well-formed filter and accounts for the change
    of the counter; with a fingerprint other than the sentinel, the
    occupancy changes with the counter. *)
Lemma step_total o w :
  wf (filt w) ->
  exists ok w' d,
    step rnd o w = Some (ok, w')
    /\ wf (filt w') /\ frame w w'
    /\ accounted o ok d
    /\ count (filt w') = bumped (count (filt w)) d
    /\ (swaps w <= swaps w')%nat
    /\ (item_fp (op_item o) <> Some emptyFingerprint ->
        occupancy (buckets (filt w')) = occupancy (buckets (filt w)) + d).
Proof.
  intros Hwf.
  destruct o as [x|x|x|x]; simpl step; simpl op_item.
  - unfold Insert. destruct (check x) as [x'|] eqn:Hc.
    + destruct (insert_total x' w Hwf)
        as (ok & w' & Hrun & Hwf' & Hfr & Hcnt & Hsw & _ & Hocc).
      exists ok, w', (if ok then 1 else 0).
      split; [exact Hrun|]. split; [exact Hwf'|]. split; [exact Hfr|].
      split; [reflexivity|].
      split; [rewrite Hcnt; destruct ok; reflexivity|]. split; [lia|].
      intros Hfp.
      destruct (locate_wf x' _ Hwf) as (fp & i1 & i2 & Hloc & _).
      apply (Hocc fp i1 i2 Hloc). intros ->.
      apply Hfp, (item_fp_locate x x' _ _ _ _ Hc Hloc).
    + exists false, w, 0. split; [reflexivity|]. split; [exact Hwf|].
      split; [apply frame_refl|]. split; [reflexivity|]. split; [reflexivity|]. split; [lia|].
      intros; lia.
  - unfold InsertUnique. destruct (check x) as [x'|] eqn:Hc.
    + unfold Lookup. rewrite (check_checked _ _ Hc).
      destruct (lookup_total x' w Hwf) as (found & Hlk).
      rewrite (bind_eq _ _ _ _ _ Hlk).
      destruct found.
      * exists true, w, 0. split; [reflexivity|]. split; [exact Hwf|].
        split; [apply frame_refl|]. split; [left; auto|]. split; [reflexivity|]. split; [lia|].
        intros; lia.
      * destruct (insert_total x' w Hwf)
          as (ok & w' & Hrun & Hwf' & Hfr & Hcnt & Hsw & _ & Hocc).
        exists ok, w', (if ok then 1 else 0).
        split; [exact Hrun|]. split; [exact Hwf'|]. split; [exact Hfr|].
        split; [right; reflexivity|].
        split; [rewrite Hcnt; destruct ok; reflexivity|]. split; [lia|].
        intros Hfp.
        destruct (locate_wf x' _ Hwf) as (fp & i1 & i2 & Hloc & _).
        apply (Hocc fp i1 i2 Hloc). intros ->.
        apply Hfp, (item_fp_locate x x' _ _ _ _ Hc Hloc).
    + exists false, w, 0. split; [reflexivity|]. split; [exact Hwf|].
      split; [apply frame_refl|]. split; [right; reflexivity|].
      split; [reflexivity|]. split; [lia|]. intros; lia.
  - unfold Lookup. destruct (check x) as [x'|] eqn:Hc.
    + destruct (lookup_total x' w Hwf) as (found & Hlk).
      exists found, w, 0. split; [exact Hlk|]. split; [exact Hwf|].
      split; [apply frame_refl|]. split; [reflexivity|]. split; [reflexivity|]. split; [lia|].
      intros; lia.
    + exists false, w, 0. split; [reflexivity|]. split; [exact Hwf|].
      split; [apply frame_refl|]. split; [reflexivity|]. split; [reflexivity|]. split; [lia|].
      intros; lia.
  - unfold Delete. destruct (check x) as [x'|] eqn:Hc.
    + destruct (deleteItem_total x' w Hwf)
        as (ok & w' & Hrun & Hwf' & Hfr & Hcnt & Hsw & Hocc).
      exists ok, w', (if ok then -1 else 0).
      split; [exact Hrun|]. split; [exact Hwf'|]. split; [exact Hfr|].
      split; [reflexivity|].
      split; [rewrite Hcnt; destruct ok; reflexivity|]. split; [lia|].
      intros Hfp.
      destruct (locate_wf x' _ Hwf) as (fp & i1 & i2 & Hloc & _).
      apply (Hocc fp i1 i2 Hloc). intros ->.
      apply Hfp, (item_fp_locate x x' _ _ _ _ Hc Hloc).
    + exists false, w, 0. split; [reflexivity|]. split; [exact Hwf|].
      split; [apply frame_refl|]. split; [reflexivity|]. split; [reflexivity|]. split; [lia|].
      intros; lia.
Qed.

End Totality.

(** ** Runs of calls *)

Lemma bumped_wrap c d : bumped (wrap32 c) d = wrap32 (c + d).
Proof.
  unfold bumped, wrap32. destruct (d =? 0) eqn:E.
  - apply Z.eqb_eq in E. subst d. f_equal. lia.
  - apply Zplus_mod_idemp_l.
Qed.

Lemma wf_newFilter tb bs : 0 < tb -> 0 < bs -> wf (newFilter tb bs).
Proof.
  intros Htb Hbs. constructor; simpl; try assumption.
  - unfold defaultMaxKicks. lia.
  - unfold initBuckets. rewrite length_replicate. lia.
  - unfold initBuckets. apply Forall_replicate. rewrite length_replicate. lia.
Qed.

Lemma occupied_replicate n : occupied (replicate n emptyFingerprint) = 0.
Proof. induction n as [|n IH]; simpl; [reflexivity|exact IH]. Qed.

Lemma occupancy_initBuckets tb bs : occupancy (initBuckets tb bs) = 0.
Proof.
  unfold initBuckets. induction (Z.to_nat tb) as [|n IH]; simpl; [reflexivity|].
  rewrite occupied_replicate, IH. reflexivity.
Qed.

Lemma accounted_sum ops res ds :
  Forall3 accounted ops res ds ->
  forallb (fun o => negb (is_insert_unique o)) ops = true ->
  sumZ ds = successes is_insert ops res - successes is_delete ops res.
Proof.
  induction 1 as [|o r d ops res ds Hacc _ IH]; simpl; [reflexivity|].
  intros Hall. apply andb_true_iff in Hall as [Ho Hall]. specialize (IH Hall).
  unfold sumZ in *. simpl. rewrite IH.
  destruct o; simpl in *; try discriminate; subst d; destruct r; simpl; lia.
Qed.

Section Runs.

Context {H : Hash32}.
Variable rnd : nat -> Z.

Lemma run_total ops : forall w c0,
  wf (filt w) -> count (filt w) = wrap32 c0 ->
  exists res w' ds,
    run rnd ops w = Some (res, w')
    /\ wf (filt w') /\ frame w w'
    /\ Forall3 accounted ops res ds
    /\ count (filt w') = wrap32 (c0 + sumZ ds)
    /\ (swaps w <= swaps w')%nat
    /\ (Forall (fun o => item_fp (op_item o) <> Some emptyFingerprint) ops ->
        occupancy (buckets (filt w')) = occupancy (buckets (filt w)) + sumZ ds).
Proof.
  induction ops as [|o ops IH]; intros w c0 Hwf Hc.
  - exists [], w, []. simpl. split; [reflexivity|]. split; [exact Hwf|].
    split; [apply frame_refl|]. split; [constructor|].
    split; [rewrite Hc; f_equal; lia|]. split; [lia|]. intros _. lia.
  - destruct (step_total rnd o w Hwf)
      as (ok & w1 & d & Hstep & Hwf1 & Hfr1 & Hacc & Hcnt & Hsw1 & Hocc).
    assert (Hc1 : count (filt w1) = wrap32 (c0 + d))
      by (rewrite Hcnt, Hc; apply bumped_wrap).
    destruct (IH w1 (c0 + d) Hwf1 Hc1)
      as (res & w' & ds & Hrun & Hwf' & Hfr & Hall & Hcnt' & Hsw & Hocc').
    exists (ok :: res), w', (d :: ds).
    split.
    { simpl run. rewrite (bind_eq _ _ _ _ _ Hstep), (bind_eq _ _ _ _ _ Hrun).
      reflexivity. }
    split; [exact Hwf'|]. split; [exact (frame_trans _ _ _ Hfr1 Hfr)|].
    split; [constructor; assumption|].
    split; [rewrite Hcnt'; f_equal; simpl; lia|]. split; [lia|].
    intros Hnz. apply Forall_cons in Hnz as [Hnz1 Hnz].
    rewrite (Hocc' Hnz), (Hocc Hnz1). simpl. lia.
Qed.

(** C4 (amended): from a fresh filter, under any run of calls none of which
    is given an item whose fingerprint is the sentinel 0, the counter is the
    number of occupied slots (modulo 2^32) and never exceeds
    bucketSize * totalBuckets. *)
Theorem count_within_capacity tb bs ops :
  0 < tb -> 0 < bs ->
  Forall (fun o => item_fp (op_item o) <> Some emptyFingerprint) ops ->
  exists res w',
    run rnd ops (initWorld (newFilter tb bs)) = Some (res, w')
    /\ count (filt w') = wrap32 (occupancy (buckets (filt w')))
    /\ count (filt w') <= capacity (filt w').
Proof.
  intros Htb Hbs Hnz.
  destruct (run_total ops (initWorld (newFilter tb bs)) 0 (wf_newFilter tb bs Htb Hbs))
    as (res & w' & ds & Hrun & Hwf' & _ & _ & Hcnt & _ & Hocc); [reflexivity|].
  specialize (Hocc Hnz). simpl in Hocc. rewrite occupancy_initBuckets in Hocc.
  exists res, w'. split; [exact Hrun|].
  assert (Hc : count (filt w') = wrap32 (occupancy (buckets (filt w'))))
    by (rewrite Hcnt, Hocc; reflexivity).
  split; [exact Hc|].
  pose proof (occupancy_bound _ _ (wf_slots _ Hwf')) as Hb.
  rewrite (wf_buckets _ Hwf') in Hb.
  rewrite Hc. unfold capacity, wrap32.
  etransitivity; [apply Z.mod_le; lia|]. lia.
Qed.

(** C6 (amended): after a run of Insert, Lookup and Delete calls on a fresh
    filter, of which [n] Insert calls and [m] Delete calls returned true,
    Count() is (n - m) modulo 2^32, hence n - m when that is in the range of
    the counter. *)
Theorem count_is_inserts_minus_deletes tb bs ops :
  0 < tb -> 0 < bs ->
  forallb (fun o => negb (is_insert_unique o)) ops = true ->
  exists res w',
    run rnd ops (initWorld (newFilter tb bs)) = Some (res, w')
    /\ Count w' =
       Some (wrap32 (successes is_insert ops res - successes is_delete ops res), w')
    /\ (0 <= successes is_insert ops res - successes is_delete ops res < 2 ^ 32 ->
        Count w' =
        Some (successes is_insert ops res - successes is_delete ops res, w')).
Proof.
  intros Htb Hbs Hall.
  destruct (run_total ops (initWorld (newFilter tb bs)) 0 (wf_newFilter tb bs Htb Hbs))
    as (res & w' & ds & Hrun & _ & _ & Hacc & Hcnt & _ & _); [reflexivity|].
  rewrite (accounted_sum _ _ _ Hacc Hall) in Hcnt. simpl in Hcnt.
  exists res, w'. split; [exact Hrun|].
  unfold Count, bind, getFilter, ret. rewrite Hcnt.
  split; [reflexivity|].
  intros Hr. unfold wrap32. rewrite Z.mod_small by exact Hr. reflexivity.
Qed.

(** C7: on every well-formed filter and for every item, Insert returns a
    boolean after at most maxKicks calls of replaceItem; a failed insertion
    of a non-empty item made exactly maxKicks of them. *)
Theorem insert_bounded_work x w :
  wf (filt w) ->
  exists ok w',
    Insert rnd x w = Some (ok, w')
    /\ 0 <= Z.of_nat (swaps w') - Z.of_nat (swaps w) <= maxKicks (filt w)
    /\ (x <> [] -> ok = false ->
        Z.of_nat (swaps w') - Z.of_nat (swaps w) = maxKicks (filt w)).
Proof.
  intros Hwf. pose proof (wf_kicks _ Hwf) as Hk.
  unfold Insert. destruct (check x) as [x'|] eqn:Hc.
  - destruct (insert_total rnd x' w Hwf)
      as (ok & w' & Hrun & _ & _ & _ & Hsw & Hfalse & _).
    exists ok, w'. split; [exact Hrun|]. split; [lia|].
    intros _ E. specialize (Hfalse E). lia.
  - exists false, w. split; [reflexivity|]. split; [lia|].
    intros Hx. destruct x as [|a [|b x]]; [congruence|discriminate|discriminate].
Qed.

(** C9: on the empty byte sequence Insert, InsertUnique, Lookup and Delete
    return false and leave the whole state, the buckets and the counter
    with it, as it was. *)
Theorem empty_item_rejected w :
  Insert rnd [] w = Some (false, w)
  /\ InsertUnique rnd [] w = Some (false, w)
  /\ Lookup [] w = Some (false, w)
  /\ Delete [] w = Some (false, w).
Proof. repeat split. Qed.

End Runs.

Lemma wf_fresh1 : wf (filt fresh1).
Proof. apply wf_newFilter; vm_compute; reflexivity. Qed.

Lemma wf_full1 : wf (filt full1).
Proof. constructor; simpl; try lia. repeat constructor. Qed.

Lemma count_within_capacity_witness :
  exists res w',
    run rnd0 [OpInsert item_a; OpInsertUnique item_b; OpLookup item_a; OpDelete item_a]
        (initWorld (newFilter 1 4)) = Some (res, w')
    /\ count (filt w') = wrap32 (occupancy (buckets (filt w')))
    /\ count (filt w') <= capacity (filt w').
Proof.
  apply (count_within_capacity rnd0 1 4); [lia|lia|].
  repeat constructor; vm_compute; discriminate.
Defined.

(** C4, as stated, fails: the item [zero_item] has the fingerprint 0, each
    Insert of it into the fresh one-bucket filter of four slots returns true
    and writes the sentinel over an empty slot, and after five of them the
    counter is 5. *)
Lemma count_exceeds_capacity :
  outcome (let* res := run rnd0 (replicate 5 (OpInsert zero_item)) in
           let* c := Count in
           let* f := getFilter in
           ret (res, c, capacity f)) fresh1
  = Some ([true; true; true; true; true], 5, 4).
Proof. vm_compute. reflexivity. Qed.

Lemma count_is_inserts_minus_deletes_witness :
  exists res w',
    run rnd0 [OpInsert item_a; OpInsert item_b; OpLookup item_c; OpDelete item_a]
        (initWorld (newFilter 1 4)) = Some (res, w')
    /\ Count w' =
       Some (wrap32 (successes is_insert
                       [OpInsert item_a; OpInsert item_b; OpLookup item_c; OpDelete item_a] res
                     - successes is_delete
                       [OpInsert item_a; OpInsert item_b; OpLookup item_c; OpDelete item_a] res), w')
    /\ (0 <= successes is_insert
               [OpInsert item_a; OpInsert item_b; OpLookup item_c; OpDelete item_a] res
             - successes is_delete
               [OpInsert item_a; OpInsert item_b; OpLookup item_c; OpDelete item_a] res < 2 ^ 32 ->
        Count w' =
        Some (successes is_insert
                [OpInsert item_a; OpInsert item_b; OpLookup item_c; OpDelete item_a] res
              - successes is_delete
                [OpInsert item_a; OpInsert item_b; OpLookup item_c; OpDelete item_a] res, w')).
Proof.
  apply (count_is_inserts_minus_deletes rnd0 1 4); [lia|lia|reflexivity].
Defined.

(** C6, as stated, fails: on the fresh one-bucket filter Delete of
    [zero_item] finds the sentinel in an empty slot and returns true; no
    Insert and one Delete succeeded, and Count() is 4294967295, not -1. *)
Lemma count_wraps_below_zero :
  outcome (let* res := run rnd0 [OpDelete zero_item] in
           let* c := Count in
           ret (res, c, successes is_insert [OpDelete zero_item] res
                        - successes is_delete [OpDelete zero_item] res)) fresh1
  = Some ([true], 4294967295, -1).
Proof. vm_compute. reflexivity. Qed.

Lemma insert_bounded_work_witness :
  exists ok w',
    Insert rnd0 item_e full1 = Some (ok, w')
    /\ 0 <= Z.of_nat (swaps w') - Z.of_nat (swaps full1) <= maxKicks (filt full1)
    /\ (item_e <> [] -> ok = false ->
        Z.of_nat (swaps w') - Z.of_nat (swaps full1) = maxKicks (filt full1)).
Proof. apply (insert_bounded_work rnd0 item_e full1). exact wf_full1. Defined.

Lemma full1_reached :
  run rnd0 [OpInsert item_a; OpInsert item_b; OpInsert item_c; OpInsert item_d] fresh1
  = Some ([true; true; true; true], full1).
Proof. vm_compute. reflexivity. Qed.

(** ** Single calls *)

Section Single.

Context {H : Hash32}.
Variable rnd : nat -> Z.

Lemma locate_frame x w w' :
  frame w w' -> locate x (filt w') = locate x (filt w).
Proof. intros (_ & Htb & _). unfold locate. rewrite Htb. reflexivity. Qed.

Lemma lookup_with_bucket i b' c w j :
  (Z.to_nat i < length (buckets (filt w)))%nat ->
  buckets (filt (with_count c (with_bucket i b' w))) !! Z.to_nat j =
  if decide (Z.to_nat i = Z.to_nat j) then Some b' else buckets (filt w) !! Z.to_nat j.
Proof.
  intros Hi. simpl. rewrite list_lookup_insert.
  destruct (decide (Z.to_nat i = Z.to_nat j)) as [E|E].
  - rewrite decide_True by (split; [exact E|exact Hi]). reflexivity.
  - rewrite decide_False by (intros [E' _]; exact (E E')). reflexivity.
Qed.

(** An insertion that made no relocation step either filled an empty slot
    of the first or of the second candidate bucket, or failed at once with
    the filter untouched (a kick bound of zero). *)
Lemma insert_no_swap x w ok w' fp i1 i2 b1 b2 :
  wf (filt w) -> locate x (filt w) = Some (fp, i1, i2) ->
  buckets (filt w) !! Z.to_nat i1 = Some b1 ->
  buckets (filt w) !! Z.to_nat i2 = Some b2 ->
  insert rnd x w = Some (ok, w') -> swaps w' = swaps w ->
  (containsIn b1 emptyFingerprint = true /\ ok = true
   /\ w' = with_count (wrap32 (count (filt w) + 1))
             (with_bucket i1 (addToBucket b1 fp).2 w))
  \/ (containsIn b1 emptyFingerprint = false
      /\ containsIn b2 emptyFingerprint = true /\ ok = true
      /\ w' = with_count (wrap32 (count (filt w) + 1))
                (with_bucket i2 (addToBucket b2 fp).2 w))
  \/ (containsIn b1 emptyFingerprint = false
      /\ containsIn b2 emptyFingerprint = false
      /\ ok = false /\ filt w' = filt w).
Proof.
  intros Hwf Hloc Hb1 Hb2 Hrun Hsw.
  destruct (locate_wf x _ Hwf) as (fp' & j1 & j2 & Hloc' & Hi1 & Hi2).
  rewrite Hloc in Hloc'. injection Hloc' as <- <- <-.
  destruct (containsIn b1 emptyFingerprint) eqn:Hc1;
    [|destruct (containsIn b2 emptyFingerprint) eqn:Hc2].
  - left. rewrite (insert_first rnd x w fp i1 i2 b1 Hloc (proj1 Hi1) Hb1 Hc1) in Hrun.
    injection Hrun as <- <-. auto.
  - right. left.
    rewrite (insert_second rnd x w fp i1 i2 b1 b2 Hloc (proj1 Hi1) (proj1 Hi2)
               Hb1 Hb2 Hc1 Hc2) in Hrun.
    injection Hrun as <- <-. auto.
  - right. right.
    rewrite (insert_evict rnd x w fp i1 i2 b1 b2 Hloc (proj1 Hi1) (proj1 Hi2)
               Hb1 Hb2 Hc1 Hc2) in Hrun.
    set (r := rnd (draws w) mod 2) in *.
    set (ri := if r =? 0 then i1 else i2) in *.
    assert (Hri : 0 <= ri < totalBuckets (filt (after_draw w)))
      by (unfold ri; destruct (r =? 0); assumption).
    destruct (insert_loop_total rnd (Z.to_nat (maxKicks (filt w))) ri fp
                (after_draw w) Hwf Hri)
      as (ok0 & w0 & Hloop & _ & _ & _ & Hsw0 & Hpos & Hfalse & _).
    unfold bind at 1 in Hrun. unfold bind at 1 in Hrun.
    rewrite (Intn_eq rnd 2 w) in Hrun by lia. fold r in Hrun. fold ri in Hrun.
    rewrite Hloop in Hrun. unfold bind in Hrun. rewrite bump_eq in Hrun.
    injection Hrun as <- <-.
    assert (Hsw' : swaps w0 = swaps w) by (destruct ok0; exact Hsw).
    simpl in Hsw0, Hpos, Hfalse.
    destruct (Z.to_nat (maxKicks (filt w))) as [|n] eqn:Hn.
    + simpl in Hloop. injection Hloop as <- <-. auto.
    + exfalso. assert (S n <> O) as Hne by discriminate.
      specialize (Hpos Hne). lia.
Qed.

(** A fingerprint placed straight into an empty slot of a candidate bucket
    is found by the next Lookup. *)
Lemma direct_insert_found x w w' :
  wf (filt w) ->
  Insert rnd x w = Some (true, w') -> swaps w' = swaps w ->
  Lookup x w' = Some (true, w').
Proof.
  intros Hwf Hins Hsw. unfold Insert in Hins. unfold Lookup.
  destruct (check x) as [x'|]; [|discriminate].
  destruct (locate_wf x' _ Hwf) as (fp & i1 & i2 & Hloc & Hi1 & Hi2).
  destruct (wf_index _ _ Hwf Hi1) as (b1 & Hb1 & _).
  destruct (wf_index _ _ Hwf Hi2) as (b2 & Hb2 & _).
  pose proof (wf_buckets _ Hwf) as Hlen.
  destruct (insert_no_swap x' w true w' fp i1 i2 b1 b2 Hwf Hloc Hb1 Hb2 Hins Hsw)
    as [(Hc1 & _ & ->)|[(Hc1 & Hc2 & _ & ->)|(_ & _ & E & _)]]; [| |discriminate].
  - assert (Hl1 : buckets (filt (with_count (wrap32 (count (filt w) + 1))
                    (with_bucket i1 (addToBucket b1 fp).2 w))) !! Z.to_nat i1
                  = Some (addToBucket b1 fp).2).
    { rewrite lookup_with_bucket by lia. rewrite decide_True by reflexivity.
      reflexivity. }
    assert (Hl2 : exists b2', buckets (filt (with_count (wrap32 (count (filt w) + 1))
                    (with_bucket i1 (addToBucket b1 fp).2 w))) !! Z.to_nat i2
                  = Some b2').
    { rewrite lookup_with_bucket by lia. destruct (decide _); eauto. }
    destruct Hl2 as (b2' & Hl2).
    rewrite (lookup_eq x' (with_count (wrap32 (count (filt w) + 1))
                    (with_bucket i1 (addToBucket b1 fp).2 w))
               fp i1 i2 _ b2' Hloc (proj1 Hi1) (proj1 Hi2) Hl1 Hl2).
    rewrite (addToBucket_contains _ _ Hc1). reflexivity.
  - assert (Hl2 : buckets (filt (with_count (wrap32 (count (filt w) + 1))
                    (with_bucket i2 (addToBucket b2 fp).2 w))) !! Z.to_nat i2
                  = Some (addToBucket b2 fp).2).
    { rewrite lookup_with_bucket by lia. rewrite decide_True by reflexivity.
      reflexivity. }
    assert (Hl1 : exists b1', buckets (filt (with_count (wrap32 (count (filt w) + 1))
                    (with_bucket i2 (addToBucket b2 fp).2 w))) !! Z.to_nat i1
                  = Some b1').
    { rewrite lookup_with_bucket by lia. destruct (decide _); eauto. }
    destruct Hl1 as (b1' & Hl1).
    rewrite (lookup_eq x' (with_count (wrap32 (count (filt w) + 1))
                    (with_bucket i2 (addToBucket b2 fp).2 w))
               fp i1 i2 b1' _ Hloc (proj1 Hi1) (proj1 Hi2) Hl1 Hl2).
    rewrite (addToBucket_contains _ _ Hc2). rewrite orb_true_r. reflexivity.
Qed.

(** C1 (amended): on a well-formed filter, if Insert(x) returns true
    without a relocation step (the fingerprint went straight into an empty
    slot of a candidate bucket), the Lookup(x) that follows returns true. *)
Theorem insert_then_lookup x w w' :
  wf (filt w) ->
  Insert rnd x w = Some (true, w') -> swaps w' = swaps w ->
  Lookup x w' = Some (true, w').
Proof. apply direct_insert_found. Qed.

(** C10: Delete of an item whose fingerprint is the sentinel 0 returns true
    as soon as one of its candidate buckets has an empty slot, whatever was
    inserted before; the buckets stay as they are and the counter goes down
    by one, from 0 to 4294967295. *)
Theorem delete_of_sentinel x x' w i1 i2 b1 b2 :
  wf (filt w) -> check x = Some x' ->
  locate x' (filt w) = Some (emptyFingerprint, i1, i2) ->
  buckets (filt w) !! Z.to_nat i1 = Some b1 ->
  buckets (filt w) !! Z.to_nat i2 = Some b2 ->
  containsIn b1 emptyFingerprint || containsIn b2 emptyFingerprint = true ->
  Delete x w = Some (true, with_count (wrap32 (count (filt w) - 1)) w)
  /\ (count (filt w) = 0 ->
      Count (with_count (wrap32 (count (filt w) - 1)) w) =
      Some (4294967295, with_count (wrap32 (count (filt w) - 1)) w)).
Proof.
  intros Hwf Hc Hloc Hb1 Hb2 Hor.
  destruct (locate_wf x' _ Hwf) as (fp' & j1 & j2 & Hloc' & Hi1 & Hi2).
  rewrite Hloc in Hloc'. injection Hloc' as <- <- <-.
  split.
  - unfold Delete. rewrite Hc.
    destruct (containsIn b1 emptyFingerprint) eqn:Hc1.
    + rewrite (deleteItem_first x' w _ i1 i2 b1 Hloc (proj1 Hi1) Hb1 Hc1).
      rewrite deleteFrom_empty, (with_bucket_id _ _ _ Hb1). reflexivity.
    + simpl in Hor.
      rewrite (deleteItem_second x' w _ i1 i2 b1 b2 Hloc (proj1 Hi1) (proj1 Hi2)
                 Hb1 Hb2 Hc1 Hor).
      rewrite deleteFrom_empty, (with_bucket_id _ _ _ Hb2). reflexivity.
  - intros E. unfold Count, bind, getFilter, ret. simpl. rewrite E. reflexivity.
Qed.

End Single.

Lemma insert_then_lookup_witness :
  Lookup item_a
    (with_count 1 (with_bucket 0 [58217; 0; 0; 0] fresh1))
  = Some (true, with_count 1 (with_bucket 0 [58217; 0; 0; 0] fresh1)).
Proof.
  apply (insert_then_lookup rnd0 item_a fresh1); [exact wf_fresh1| |reflexivity].
  vm_compute. reflexivity.
Defined.

(** C1, as stated, fails: [zero_item] has the fingerprint 0.  With the one
    bucket full, Insert swaps the 0 into a slot, finds that slot empty when
    it puts the evicted fingerprint back, and returns true; the bucket is as
    before and the Lookup that follows returns false. *)
Lemma insert_true_lookup_false :
  outcome (let* a := Insert rnd0 zero_item in
           let* l := Lookup zero_item in
           ret (a, l)) full1
  = Some (true, false).
Proof. vm_compute. reflexivity. Qed.

Lemma delete_of_sentinel_witness :
  Delete zero_item fresh1 = Some (true, with_count (wrap32 (count (filt fresh1) - 1)) fresh1)
  /\ (count (filt fresh1) = 0 ->
      Count (with_count (wrap32 (count (filt fresh1) - 1)) fresh1) =
      Some (4294967295, with_count (wrap32 (count (filt fresh1) - 1)) fresh1)).
Proof.
  apply (delete_of_sentinel zero_item zero_item fresh1 0 0 [0; 0; 0; 0] [0; 0; 0; 0]);
    [exact wf_fresh1|reflexivity|vm_compute; reflexivity|reflexivity|reflexivity
    |reflexivity].
Defined.

(** ** Copies of a fingerprint *)

Lemma copies_nonneg b fp : 0 <= copies b fp.
Proof. induction b as [|s b IH]; simpl; [lia|]. destruct (s =? fp); lia. Qed.

Lemma containsIn_copies b fp : containsIn b fp = (0 <? copies b fp).
Proof.
  induction b as [|s b IH]; simpl; [reflexivity|].
  pose proof (copies_nonneg b fp).
  destruct (s =? fp).
  - symmetry. apply Z.ltb_lt. lia.
  - rewrite IH. f_equal.
Qed.

Lemma copies_add b fp :
  containsIn b emptyFingerprint = true -> fp <> emptyFingerprint ->
  copies (addToBucket b fp).2 fp = copies b fp + 1.
Proof.
  intros Hc Hfp.
  assert (E0 : (fp =? fp) = true) by apply Z.eqb_refl.
  assert (E1 : (0 =? fp) = false)
    by (apply Z.eqb_neq; unfold emptyFingerprint in Hfp; lia).
  induction b as [|s b IH]; simpl in Hc |- *; [discriminate|].
  destruct (s =? emptyFingerprint) eqn:E; simpl.
  - apply Z.eqb_eq in E. subst s. unfold emptyFingerprint. rewrite E0, E1. lia.
  - specialize (IH Hc). destruct (addToBucket b fp) as [ok b'']. simpl in *.
    rewrite IH. lia.
Qed.

Lemma copies_delete b fp :
  containsIn b fp = true -> fp <> emptyFingerprint ->
  copies (deleteFrom b fp).2 fp = copies b fp - 1.
Proof.
  intros Hc Hfp.
  assert (E1 : (0 =? fp) = false)
    by (apply Z.eqb_neq; unfold emptyFingerprint in Hfp; lia).
  induction b as [|s b IH]; simpl in Hc |- *; [discriminate|].
  destruct (s =? fp) eqn:E; simpl.
  - clear IH E1. unfold emptyFingerprint in *.
    destruct fp; [congruence| |]; simpl; lia.
  - specialize (IH Hc). destruct (deleteFrom b fp) as [ok b'']. simpl in *.
    rewrite E, IH. lia.
Qed.

(** [deleteFrom] clears the first slot that holds the fingerprint and no
    other. *)
Lemma deleteFrom_clears b fp :
  containsIn b fp = true ->
  exists k, b !! k = Some fp
    /\ (forall j s, (j < k)%nat -> b !! j = Some s -> s <> fp)
    /\ (deleteFrom b fp).2 = <[k := emptyFingerprint]> b.
Proof.
  induction b as [|s b IH]; simpl; [discriminate|].
  destruct (s =? fp) eqn:E; simpl.
  - intros _. apply Z.eqb_eq in E. subst s. exists O.
    split; [reflexivity|]. split; [intros j s Hj; lia|reflexivity].
  - intros Hc. destruct (IH Hc) as (k & Hk & Hfirst & Hd).
    exists (S k). split; [exact Hk|]. split.
    + intros [|j] s' Hj Hs; simpl in Hs.
      * injection Hs as <-. apply Z.eqb_neq. exact E.
      * apply (Hfirst j s'); [lia|exact Hs].
    + destruct (deleteFrom b fp) as [ok b'']. simpl in *. rewrite Hd. reflexivity.
Qed.

Lemma bucket_of_lookup f i b :
  buckets f !! Z.to_nat i = Some b -> bucket_of f i = b.
Proof. unfold bucket_of. intros ->. reflexivity. Qed.

Lemma held_first w fp i1 i2 b1 b1' c :
  0 <= i1 -> 0 <= i2 ->
  buckets (filt w) !! Z.to_nat i1 = Some b1 ->
  held (filt (with_count c (with_bucket i1 b1' w))) fp i1 i2 =
  held (filt w) fp i1 i2 - copies b1 fp + copies b1' fp.
Proof.
  intros H1 H2 Hb1. pose proof (lookup_lt_Some _ _ _ Hb1) as Hlt.
  unfold held, bucket_of. simpl buckets.
  rewrite (list_lookup_insert_eq _ _ _ Hlt), Hb1. simpl default.
  destruct (i1 =? i2) eqn:E; [lia|].
  apply Z.eqb_neq in E.
  rewrite list_lookup_insert_ne by lia. lia.
Qed.

Lemma held_second w fp i1 i2 b2 b2' c :
  0 <= i1 -> 0 <= i2 -> i1 <> i2 ->
  buckets (filt w) !! Z.to_nat i2 = Some b2 ->
  held (filt (with_count c (with_bucket i2 b2' w))) fp i1 i2 =
  held (filt w) fp i1 i2 - copies b2 fp + copies b2' fp.
Proof.
  intros H1 H2 Hne Hb2. pose proof (lookup_lt_Some _ _ _ Hb2) as Hlt.
  unfold held, bucket_of. simpl buckets.
  rewrite (list_lookup_insert_eq _ _ _ Hlt), Hb2. simpl default.
  rewrite list_lookup_insert_ne by lia.
  apply Z.eqb_neq in Hne. rewrite Hne. lia.
Qed.

Section Copies.

Context {H : Hash32}.
Variable rnd : nat -> Z.

Lemma lookup_held x w fp i1 i2 :
  wf (filt w) -> locate x (filt w) = Some (fp, i1, i2) ->
  lookup x w = Some (0 <? held (filt w) fp i1 i2, w).
Proof.
  intros Hwf Hloc.
  destruct (locate_wf x _ Hwf) as (fp' & j1 & j2 & Hloc' & Hi1 & Hi2).
  rewrite Hloc in Hloc'. injection Hloc' as <- <- <-.
  destruct (wf_index _ _ Hwf Hi1) as (b1 & Hb1 & _).
  destruct (wf_index _ _ Hwf Hi2) as (b2 & Hb2 & _).
  rewrite (lookup_eq x w fp i1 i2 b1 b2 Hloc (proj1 Hi1) (proj1 Hi2) Hb1 Hb2).
  unfold held. rewrite (bucket_of_lookup _ _ _ Hb1), (bucket_of_lookup _ _ _ Hb2).
  rewrite !containsIn_copies.
  pose proof (copies_nonneg b1 fp). pose proof (copies_nonneg b2 fp).
  f_equal. f_equal.
  destruct (i1 =? i2) eqn:E.
  - apply Z.eqb_eq in E. subst i2. assert (b2 = b1) as -> by congruence.
    rewrite Z.add_0_r. apply orb_diag.
  - destruct (0 <? copies b1 fp) eqn:E1, (0 <? copies b2 fp) eqn:E2; simpl;
      symmetry; try (apply Z.ltb_lt); try (apply Z.ltb_ge);
      try apply Z.ltb_lt in E1; try apply Z.ltb_lt in E2;
      try apply Z.ltb_ge in E1; try apply Z.ltb_ge in E2; lia.
Qed.

(** A direct insertion of a fingerprint other than the sentinel adds one
    copy to the candidate buckets. *)
Lemma insert_held x w w' fp i1 i2 :
  wf (filt w) -> locate x (filt w) = Some (fp, i1, i2) ->
  fp <> emptyFingerprint ->
  insert rnd x w = Some (true, w') -> swaps w' = swaps w ->
  wf (filt w') /\ frame w w'
  /\ held (filt w') fp i1 i2 = held (filt w) fp i1 i2 + 1.
Proof.
  intros Hwf Hloc Hfp Hins Hsw.
  destruct (locate_wf x _ Hwf) as (fp' & j1 & j2 & Hloc' & Hi1 & Hi2).
  rewrite Hloc in Hloc'. injection Hloc' as <- <- <-.
  destruct (wf_index _ _ Hwf Hi1) as (b1 & Hb1 & _).
  destruct (wf_index _ _ Hwf Hi2) as (b2 & Hb2 & _).
  destruct (insert_no_swap rnd x w true w' fp i1 i2 b1 b2 Hwf Hloc Hb1 Hb2 Hins Hsw)
    as [(Hc1 & _ & ->)|[(Hc1 & Hc2 & _ & ->)|(_ & _ & E & _)]]; [| |discriminate].
  - split; [apply wf_with_count, (wf_with_bucket i1 b1);
            [exact Hwf|exact Hb1|apply addToBucket_length]|].
    split; [unfold frame; simpl; auto|].
    rewrite (held_first w fp i1 i2 b1 _ _ (proj1 Hi1) (proj1 Hi2) Hb1).
    rewrite (copies_add _ _ Hc1 Hfp). lia.
  - assert (Hne : i1 <> i2) by (intros ->; congruence).
    split; [apply wf_with_count, (wf_with_bucket i2 b2);
            [exact Hwf|exact Hb2|apply addToBucket_length]|].
    split; [unfold frame; simpl; auto|].
    rewrite (held_second w fp i1 i2 b2 _ _ (proj1 Hi1) (proj1 Hi2) Hne Hb2).
    rewrite (copies_add _ _ Hc2 Hfp). lia.
Qed.

(** With a copy in a candidate bucket, [deleteItem] returns true and clears
    exactly one slot that held the fingerprint. *)
Lemma delete_held x w fp i1 i2 :
  wf (filt w) -> locate x (filt w) = Some (fp, i1, i2) ->
  fp <> emptyFingerprint -> 0 < held (filt w) fp i1 i2 ->
  exists w',
    deleteItem x w = Some (true, w')
    /\ wf (filt w') /\ frame w w'
    /\ held (filt w') fp i1 i2 = held (filt w) fp i1 i2 - 1
    /\ cleared_one fp (buckets (filt w)) (buckets (filt w')).
Proof.
  intros Hwf Hloc Hfp Hheld.
  destruct (locate_wf x _ Hwf) as (fp' & j1 & j2 & Hloc' & Hi1 & Hi2).
  rewrite Hloc in Hloc'. injection Hloc' as <- <- <-.
  destruct (wf_index _ _ Hwf Hi1) as (b1 & Hb1 & _).
  destruct (wf_index _ _ Hwf Hi2) as (b2 & Hb2 & _).
  unfold held in Hheld.
  rewrite (bucket_of_lookup _ _ _ Hb1), (bucket_of_lookup _ _ _ Hb2) in Hheld.
  destruct (containsIn b1 fp) eqn:Hc1.
  - eexists. split; [apply (deleteItem_first x w fp i1 i2 b1 Hloc (proj1 Hi1) Hb1 Hc1)|].
    split; [apply wf_with_count, (wf_with_bucket i1 b1);
            [exact Hwf|exact Hb1|apply deleteFrom_length]|].
    split; [unfold frame; simpl; auto|].
    split.
    + rewrite (held_first w fp i1 i2 b1 _ _ (proj1 Hi1) (proj1 Hi2) Hb1).
      rewrite (copies_delete _ _ Hc1 Hfp). lia.
    + destruct (deleteFrom_clears _ _ Hc1) as (k & Hk & _ & Hd).
      exists (Z.to_nat i1), k, b1. split; [exact Hb1|]. split; [exact Hk|].
      simpl. rewrite Hd. reflexivity.
  - assert (Hz : copies b1 fp = 0).
    { rewrite containsIn_copies in Hc1. apply Z.ltb_ge in Hc1.
      pose proof (copies_nonneg b1 fp). lia. }
    assert (Hne : i1 <> i2).
    { intros ->. rewrite Z.eqb_refl in Hheld. lia. }
    assert (Hc2 : containsIn b2 fp = true).
    { rewrite containsIn_copies. apply Z.ltb_lt.
      apply Z.eqb_neq in Hne. rewrite Hne in Hheld. lia. }
    eexists.
    split; [apply (deleteItem_second x w fp i1 i2 b1 b2 Hloc (proj1 Hi1) (proj1 Hi2)
                     Hb1 Hb2 Hc1 Hc2)|].
    split; [apply wf_with_count, (wf_with_bucket i2 b2);
            [exact Hwf|exact Hb2|apply deleteFrom_length]|].
    split; [unfold frame; simpl; auto|].
    split.
    + rewrite (held_second w fp i1 i2 b2 _ _ (proj1 Hi1) (proj1 Hi2) Hne Hb2).
      rewrite (copies_delete _ _ Hc2 Hfp). lia.
    + destruct (deleteFrom_clears _ _ Hc2) as (k & Hk & _ & Hd).
      exists (Z.to_nat i2), k, b2. split; [exact Hb2|]. split; [exact Hk|].
      simpl. rewrite Hd. reflexivity.
Qed.

(** C8 (amended): on a well-formed filter in which Lookup(x) is false, after
    two Insert(x) calls that both returned true without a relocation step,
    Delete(x) returns true and leaves Lookup(x) true, a second Delete(x)
    returns true and leaves Lookup(x) false; each Delete sets exactly one
    slot that held the fingerprint of x to the sentinel and changes no
    other. *)
Theorem delete_removes_one_copy x w0 w1 w2 :
  wf (filt w0) ->
  Lookup x w0 = Some (false, w0) ->
  Insert rnd x w0 = Some (true, w1) -> swaps w1 = swaps w0 ->
  Insert rnd x w1 = Some (true, w2) -> swaps w2 = swaps w1 ->
  exists fp w3 w4,
    item_fp x = Some fp
    /\ Delete x w2 = Some (true, w3) /\ Lookup x w3 = Some (true, w3)
    /\ Delete x w3 = Some (true, w4) /\ Lookup x w4 = Some (false, w4)
    /\ cleared_one fp (buckets (filt w2)) (buckets (filt w3))
    /\ cleared_one fp (buckets (filt w3)) (buckets (filt w4)).
Proof.
  intros Hwf Hlk Hin1 Hsw1 Hin2 Hsw2.
  unfold Insert in Hin1, Hin2. unfold Lookup in *. unfold Delete.
  destruct (check x) as [x'|] eqn:Hc; [|discriminate].
  destruct (locate_wf x' _ Hwf) as (fp & i1 & i2 & Hloc & Hi1 & Hi2).
  destruct (wf_index _ _ Hwf Hi1) as (b1 & Hb1 & _).
  destruct (wf_index _ _ Hwf Hi2) as (b2 & Hb2 & _).
  assert (Hfp : fp <> emptyFingerprint).
  { intros ->.
    rewrite (lookup_eq x' w0 _ i1 i2 b1 b2 Hloc (proj1 Hi1) (proj1 Hi2) Hb1 Hb2) in Hlk.
    injection Hlk as Hlk. apply orb_false_iff in Hlk as [Hf1 Hf2].
    destruct (insert_no_swap rnd x' w0 true w1 _ i1 i2 b1 b2 Hwf Hloc Hb1 Hb2 Hin1 Hsw1)
      as [(Hc1 & _)|[(_ & Hc2 & _)|(_ & _ & E & _)]]; congruence. }
  assert (H0 : held (filt w0) fp i1 i2 = 0).
  { rewrite (lookup_held x' w0 fp i1 i2 Hwf Hloc) in Hlk. injection Hlk as Hlk.
    apply Z.ltb_ge in Hlk. unfold held in *.
    pose proof (copies_nonneg (bucket_of (filt w0) i1) fp).
    pose proof (copies_nonneg (bucket_of (filt w0) i2) fp).
    destruct (i1 =? i2); lia. }
  destruct (insert_held x' w0 w1 fp i1 i2 Hwf Hloc Hfp Hin1 Hsw1) as (Hwf1 & Hfr1 & H1).
  assert (Hloc1 : locate x' (filt w1) = Some (fp, i1, i2))
    by (rewrite (locate_frame x' w0 w1 Hfr1); exact Hloc).
  destruct (insert_held x' w1 w2 fp i1 i2 Hwf1 Hloc1 Hfp Hin2 Hsw2) as (Hwf2 & Hfr2 & H2).
  assert (Hloc2 : locate x' (filt w2) = Some (fp, i1, i2))
    by (rewrite (locate_frame x' w1 w2 Hfr2); exact Hloc1).
  destruct (delete_held x' w2 fp i1 i2 Hwf2 Hloc2 Hfp) as (w3 & Hd3 & Hwf3 & Hfr3 & H3 & Hcl3);
    [lia|].
  assert (Hloc3 : locate x' (filt w3) = Some (fp, i1, i2))
    by (rewrite (locate_frame x' w2 w3 Hfr3); exact Hloc2).
  destruct (delete_held x' w3 fp i1 i2 Hwf3 Hloc3 Hfp) as (w4 & Hd4 & Hwf4 & Hfr4 & H4 & Hcl4);
    [lia|].
  assert (Hloc4 : locate x' (filt w4) = Some (fp, i1, i2))
    by (rewrite (locate_frame x' w3 w4 Hfr4); exact Hloc3).
  exists fp, w3, w4.
  split; [exact (item_fp_locate x x' _ _ _ _ Hc Hloc)|].
  split; [exact Hd3|].
  split; [rewrite (lookup_held x' w3 fp i1 i2 Hwf3 Hloc3);
          replace (0 <? held (filt w3) fp i1 i2) with true
            by (symmetry; apply Z.ltb_lt; lia); reflexivity|].
  split; [exact Hd4|].
  split; [rewrite (lookup_held x' w4 fp i1 i2 Hwf4 Hloc4);
          replace (0 <? held (filt w4) fp i1 i2) with false
            by (symmetry; apply Z.ltb_ge; lia); reflexivity|].
  split; [exact Hcl3|exact Hcl4].
Qed.

Lemma run_swaps ops : forall w res w',
  wf (filt w) -> run rnd ops w = Some (res, w') -> (swaps w <= swaps w')%nat.
Proof.
  induction ops as [|o ops IH]; intros w res w' Hwf Hrun.
  - injection Hrun as _ <-. lia.
  - destruct (step_total rnd o w Hwf)
      as (ok & w1 & d & Hstep & Hwf1 & _ & _ & _ & Hsw & _).
    simpl run in Hrun. rewrite (bind_eq _ _ _ _ _ Hstep) in Hrun.
    apply bind_Some in Hrun as (rs & w2 & Hrest & Hret).
    injection Hret as _ <-. specialize (IH w1 rs w2 Hwf1 Hrest). lia.
Qed.

(** Once Lookup finds the item, InsertUnique changes nothing. *)
Lemma insert_unique_present x w n :
  Lookup x w = Some (true, w) ->
  run rnd (replicate n (OpInsertUnique x)) w = Some (replicate n true, w).
Proof.
  intros Hlk. induction n as [|n IH]; [reflexivity|].
  simpl. unfold InsertUnique.
  assert (Hl := Hlk). unfold Lookup in Hl.
  destruct (check x) as [x'|] eqn:Hc; [|discriminate].
  assert (Hlk' : Lookup x' w = Some (true, w))
    by (unfold Lookup; rewrite (check_checked _ _ Hc); exact Hl).
  rewrite (bind_eq _ _ _ _ _ (bind_eq _ _ _ _ _ Hlk')).
  rewrite (bind_eq _ _ _ _ _ IH). reflexivity.
Qed.

(** C5 (amended): on a well-formed filter, any number of InsertUnique(x)
    calls in a row return, and if none of them makes a relocation step
    (every insertion finds an empty slot in a candidate bucket) they
    increment the counter at most once in total. *)
Theorem insert_unique_counts_once x n : forall w,
  wf (filt w) ->
  exists res w',
    run rnd (replicate n (OpInsertUnique x)) w = Some (res, w')
    /\ (swaps w' = swaps w ->
        count (filt w') = count (filt w)
        \/ count (filt w') = wrap32 (count (filt w) + 1)).
Proof.
  induction n as [|n IH]; intros w Hwf.
  - exists [], w. split; [reflexivity|]. auto.
  - simpl replicate. simpl run. unfold InsertUnique.
    destruct (check x) as [x'|] eqn:Hc.
    + unfold Lookup. rewrite (check_checked _ _ Hc).
      destruct (lookup_total x' w Hwf) as (found & Hlk).
      destruct found.
      * destruct (IH w Hwf) as (res & w' & Hrun & Himp).
        exists (true :: res), w'. split; [|exact Himp].
        rewrite (bind_eq _ _ _ _ _ (bind_eq _ _ _ _ _ Hlk)).
        rewrite (bind_eq _ _ _ _ _ Hrun). reflexivity.
      * destruct (insert_total rnd x' w Hwf)
          as (ok & w1 & Hins & Hwf1 & Hfr & Hcnt & Hsw & _ & _).
        assert (Hstep : (let* found := lookup x' in
                         if found then ret true else insert rnd x') w = Some (ok, w1))
          by (rewrite (bind_eq _ _ _ _ _ Hlk); exact Hins).
        rewrite (bind_eq _ _ _ _ _ Hstep).
        destruct (Nat.eq_dec (swaps w1) (swaps w)) as [E|E].
        -- destruct (locate_wf x' _ Hwf) as (fp & i1 & i2 & Hloc & Hi1 & Hi2).
           destruct (wf_index _ _ Hwf Hi1) as (b1 & Hb1 & _).
           destruct (wf_index _ _ Hwf Hi2) as (b2 & Hb2 & _).
           destruct (insert_no_swap rnd x' w ok w1 fp i1 i2 b1 b2 Hwf Hloc Hb1 Hb2 Hins E)
             as [(_ & -> & Hw1)|[(_ & _ & -> & Hw1)|(_ & _ & -> & Hw1)]].
           ++ assert (Hfound : Lookup x w1 = Some (true, w1)).
              { apply (direct_insert_found rnd x w w1 Hwf); [|exact E].
                unfold Insert. rewrite Hc. exact Hins. }
              exists (true :: replicate n true), w1.
              rewrite (bind_eq _ _ _ _ _ (insert_unique_present x w1 n Hfound)).
              split; [reflexivity|]. intros _. right. exact Hcnt.
           ++ assert (Hfound : Lookup x w1 = Some (true, w1)).
              { apply (direct_insert_found rnd x w w1 Hwf); [|exact E].
                unfold Insert. rewrite Hc. exact Hins. }
              exists (true :: replicate n true), w1.
              rewrite (bind_eq _ _ _ _ _ (insert_unique_present x w1 n Hfound)).
              split; [reflexivity|]. intros _. right. exact Hcnt.
           ++ destruct (IH w1 Hwf1) as (res & w' & Hrun & Himp).
              exists (false :: res), w'.
              rewrite (bind_eq _ _ _ _ _ Hrun). split; [reflexivity|].
              intros Hs. rewrite Hw1 in Himp. apply Himp. lia.
        -- destruct (IH w1 Hwf1) as (res & w' & Hrun & _).
           exists (ok :: res), w'.
           rewrite (bind_eq _ _ _ _ _ Hrun). split; [reflexivity|].
           intros Hs. pose proof (run_swaps _ _ _ _ Hwf1 Hrun). lia.
    + destruct (IH w Hwf) as (res & w' & Hrun & Himp).
      exists (false :: res), w'. split; [|exact Himp].
      unfold bind at 1. simpl. unfold bind at 1. rewrite Hrun. reflexivity.
Qed.

End Copies.

Lemma delete_removes_one_copy_witness :
  exists fp w3 w4,
    item_fp item_a = Some fp
    /\ Delete item_a twice1 = Some (true, w3) /\ Lookup item_a w3 = Some (true, w3)
    /\ Delete item_a w3 = Some (true, w4) /\ Lookup item_a w4 = Some (false, w4)
    /\ cleared_one fp (buckets (filt twice1)) (buckets (filt w3))
    /\ cleared_one fp (buckets (filt w3)) (buckets (filt w4)).
Proof.
  apply (delete_removes_one_copy rnd0 item_a fresh1 once1 twice1);
    [exact wf_fresh1|vm_compute; reflexivity|vm_compute; reflexivity|reflexivity
    |vm_compute; reflexivity|reflexivity].
Defined.

(** C8, as stated, fails: on the fresh one-bucket filter two Insert of
    [zero_item] return true and write the sentinel 0 over empty slots; both
    Delete return true, and Lookup still returns true after the second,
    since every empty slot matches the fingerprint 0. *)
Lemma delete_twice_still_found :
  outcome (let* i1 := Insert rnd0 zero_item in
           let* i2 := Insert rnd0 zero_item in
           let* d1 := Delete zero_item in
           let* l1 := Lookup zero_item in
           let* d2 := Delete zero_item in
           let* l2 := Lookup zero_item in
           ret [i1; i2; d1; l1; d2; l2]) fresh1
  = Some [true; true; true; true; true; true].
Proof. vm_compute. reflexivity. Qed.

Lemma insert_unique_counts_once_witness :
  exists res w',
    run rnd0 (replicate 3 (OpInsertUnique item_a)) fresh1 = Some (res, w')
    /\ (swaps w' = swaps fresh1 ->
        count (filt w') = count (filt fresh1)
        \/ count (filt w') = wrap32 (count (filt fresh1) + 1)).
Proof. apply (insert_unique_counts_once rnd0 item_a 3 fresh1). exact wf_fresh1. Defined.

(** C5, as stated, fails: with the one bucket full, InsertUnique of
    [zero_item] does not find the fingerprint 0, inserts it through one
    relocation step that leaves the bucket as it was, and returns true;
    the second call does the same, and the counter goes from 4 to 6. *)
Lemma insert_unique_counts_twice :
  outcome (let* c0 := Count in
           let* rs := run rnd0 [OpInsertUnique zero_item; OpInsertUnique zero_item] in
           let* c2 := Count in
           ret (c0, rs, c2)) full1
  = Some (4, [true; true], 6).
Proof. vm_compute. reflexivity. Qed.

(** ** The alternate index of an evicted fingerprint *)

Lemma six2_reached :
  run rnd_seq [OpInsert item_a; OpInsert item_b; OpInsert item_c;
               OpInsert item_d; OpInsert item_e; OpInsert item_f]
      (initWorld (NewFilter 8))
  = Some ([true; true; true; true; true; true], six2).
Proof. vm_compute. reflexivity. Qed.

(** C2 (the code departs from it): Insert("g") on [six2] finds bucket 0
    full; the first relocation step swaps the fingerprint 25864 of "g" into
    slot 1 and evicts 38554, the fingerprint of "d".  The index it returns
    for the evicted fingerprint is (0 xor hash(25864)) mod 2 = 0, from the
    hash of the fingerprint swapped in; the hash of the evicted fingerprint
    gives (0 xor hash(38554)) mod 2 = 1.  The next step then pushes the
    fingerprint of "e" into bucket 1, which is none of its candidates:
    Insert("g") returns true and Lookup("e") false. *)
Lemma replaceItem_hashes_incoming :
  outcome (replaceItem rnd_seq 0 25864) (after_draw six2) = Some (0, 38554)
  /\ Z.lxor 0 (sum32 (be_put_uint16 25864)) mod 2 = 0
  /\ Z.lxor 0 (sum32 (be_put_uint16 38554)) mod 2 = 1
  /\ item_fp item_g = Some 25864 /\ item_fp item_d = Some 38554
  /\ locate [x00; x65] (filt six2) = Some (29344, 0, 0)
  /\ outcome (let* rs := run rnd_seq [OpLookup item_e; OpInsert item_g; OpLookup item_e] in
              let* f := getFilter in
              ret (rs, buckets f)) six2
     = Some ([true; true; false],
             [[62543; 25864; 38554; 294]; [58217; 60981; 29344; 0]]).
Proof. vm_compute. repeat split. Qed.

(** ** Sizing *)

Lemma shiftl_one_wrap i : 0 <= i < 32 -> wrap32 (Z.shiftl 1 i) = 2 ^ i.
Proof.
  intros Hi. rewrite Z.shiftl_1_l. unfold wrap32.
  apply Z.mod_small. split; [apply Z.pow_nonneg; lia|].
  apply Z.pow_lt_mono_r; lia.
Qed.

(** The loop of [nextPowerOf2] stops at the first power of two from [2^i]
    on that reaches [v], or runs out at [2^31]. *)
Lemma nextPowerOf2_from_spec v fuel : forall i n,
  2 <= i -> Z.of_nat fuel + i = 32 ->
  (exists k, i <= k <= 31
     /\ nextPowerOf2_from fuel i v n = 2 ^ k /\ v <= 2 ^ k
     /\ (forall j, i <= j < k -> 2 ^ j < v))
  \/ ((forall j, i <= j <= 31 -> 2 ^ j < v)
      /\ nextPowerOf2_from fuel i v n = if i <? 32 then 2 ^ 31 else n).
Proof.
  induction fuel as [|fuel IH]; intros i n Hi Hsum.
  - right. simpl. split; [intros j Hj; lia|].
    destruct (i <? 32) eqn:E; [apply Z.ltb_lt in E; lia|reflexivity].
  - assert (Hlt : i < 32) by lia.
    simpl nextPowerOf2_from.
    assert (E : (i <? 32) = true) by (apply Z.ltb_lt; exact Hlt). rewrite E.
    rewrite shiftl_one_wrap by lia.
    destruct (2 ^ i >=? v) eqn:Hge.
    + left. exists i. apply Z.geb_le in Hge.
      split; [lia|]. split; [reflexivity|]. split; [exact Hge|]. intros j Hj. lia.
    + assert (Hsmall : 2 ^ i < v).
      { destruct (Z_lt_dec (2 ^ i) v) as [Hl|Hl]; [exact Hl|].
        assert (Hge' : (2 ^ i >=? v) = true) by (apply Z.geb_le; lia). congruence. }
      destruct (IH (i + 1) (2 ^ i)) as [(k & Hk & Hr & Hv & Hmin)|(Hall & Hr)]; [lia|lia| |].
      * left. exists k. split; [lia|]. split; [exact Hr|]. split; [exact Hv|].
        intros j Hj. destruct (Z.eq_dec j i) as [->|Hne]; [exact Hsmall|].
        apply Hmin. lia.
      * right. split.
        -- intros j Hj. destruct (Z.eq_dec j i) as [->|Hne]; [exact Hsmall|].
           apply Hall. lia.
        -- rewrite Hr. destruct (i + 1 <? 32) eqn:E1; [reflexivity|].
           apply Z.ltb_ge in E1. assert (i = 31) as -> by lia. reflexivity.
Qed.

Lemma nextPowerOf2_cases v :
  (exists k, 2 <= k <= 31 /\ nextPowerOf2 v = 2 ^ k /\ v <= 2 ^ k
     /\ (forall j, 2 <= j < k -> 2 ^ j < v))
  \/ (2 ^ 31 < v /\ nextPowerOf2 v = 2 ^ 31).
Proof.
  unfold nextPowerOf2.
  destruct (nextPowerOf2_from_spec v 30 2 0) as [Hl|(Hall & Hr)]; [lia|reflexivity| |].
  - left. exact Hl.
  - right. split; [apply Hall; lia|exact Hr].
Qed.

(** X1: for a request of at most 2^31, [nextPowerOf2] returns a power of
    two between 4 and 2^31 that is at least the request, and the least such
    power: it is 4, or half of it is below the request. *)
Theorem nextPowerOf2_least v :
  v <= 2 ^ 31 ->
  exists k, 2 <= k <= 31 /\ nextPowerOf2 v = 2 ^ k /\ v <= nextPowerOf2 v
    /\ (k = 2 \/ 2 ^ (k - 1) < v).
Proof.
  intros Hv. destruct (nextPowerOf2_cases v) as [(k & Hk & Hr & Hle & Hmin)|(Hbig & _)]; [|lia].
  exists k. split; [exact Hk|]. split; [exact Hr|]. split; [rewrite Hr; exact Hle|].
  destruct (Z.eq_dec k 2) as [->|Hne]; [left; reflexivity|].
  right. apply Hmin. lia.
Qed.

Lemma nextPowerOf2_least_witness :
  exists k, 2 <= k <= 31 /\ nextPowerOf2 1000 = 2 ^ k /\ 1000 <= nextPowerOf2 1000
    /\ (k = 2 \/ 2 ^ (k - 1) < 1000).
Proof. apply (nextPowerOf2_least 1000). lia. Defined.

(** X2: above 2^31 the loop runs out: [nextPowerOf2] returns 2^31, which is
    below the request, not "the next power 2 >= v" of its comment. *)
Theorem nextPowerOf2_saturates v :
  2 ^ 31 < v -> nextPowerOf2 v = 2 ^ 31 /\ nextPowerOf2 v < v.
Proof.
  intros Hv. destruct (nextPowerOf2_cases v) as [(k & Hk & Hr & Hle & _)|(_ & Hr)].
  - assert (2 ^ k <= 2 ^ 31) by (apply Z.pow_le_mono_r; lia). lia.
  - rewrite Hr. split; [reflexivity|exact Hv].
Qed.

Lemma nextPowerOf2_saturates_witness :
  nextPowerOf2 3000000000 = 2 ^ 31 /\ nextPowerOf2 3000000000 < 3000000000.
Proof. apply (nextPowerOf2_saturates 3000000000). lia. Defined.

Lemma nextPowerOf2_pow v :
  exists k, 2 <= k <= 31 /\ nextPowerOf2 v = 2 ^ k.
Proof.
  destruct (nextPowerOf2_cases v) as [(k & Hk & Hr & _)|(_ & Hr)].
  - exists k. auto.
  - exists 31. split; [lia|exact Hr].
Qed.

Lemma pow2_div4 k : 2 <= k -> 2 ^ k / 4 = 2 ^ (k - 2) /\ 4 * (2 ^ k / 4) = 2 ^ k.
Proof.
  intros Hk. replace k with ((k - 2) + 2) at 1 3 by lia.
  rewrite Z.pow_add_r by lia. change (2 ^ 2) with 4.
  rewrite Z.div_mul by lia.
  replace (k - 2 + 2) with k by lia.
  split; [reflexivity|].
  replace k with ((k - 2) + 2) at 2 by lia.
  rewrite Z.pow_add_r by lia. change (2 ^ 2) with 4. lia.
Qed.

Lemma wf_NewFilter c : wf (NewFilter c).
Proof.
  unfold NewFilter, defaultBucketSize.
  destruct (nextPowerOf2_pow c) as (k & Hk & ->).
  destruct (pow2_div4 k (proj1 Hk)) as [-> _].
  apply wf_newFilter; [apply Z.pow_pos_nonneg; lia|lia].
Qed.

Lemma wf_StdFilter : wf StdFilter.
Proof.
  apply wf_newFilter; [unfold defaultTotalBuckets; rewrite Z.shiftl_mul_pow2; lia
                      |unfold defaultBucketSize; lia].
Qed.

(** X3: [NewFilter] builds a well-formed, empty filter for every request:
    at least one bucket, a power of two of them, four slots each, the
    counter at 0, the kick bound 500; its capacity is [nextPowerOf2] of
    the request, hence at least the request up to 2^31. *)
Theorem NewFilter_shape c :
  wf (NewFilter c)
  /\ (exists k, 0 <= k <= 29 /\ totalBuckets (NewFilter c) = 2 ^ k)
  /\ bucketSize (NewFilter c) = 4 /\ maxKicks (NewFilter c) = 500
  /\ count (NewFilter c) = 0 /\ occupancy (buckets (NewFilter c)) = 0
  /\ capacity (NewFilter c) = nextPowerOf2 c
  /\ (c <= 2 ^ 31 -> c <= capacity (NewFilter c)).
Proof.
  split; [apply wf_NewFilter|].
  destruct (nextPowerOf2_pow c) as (k & Hk & Hr).
  destruct (pow2_div4 k (proj1 Hk)) as [Hd Hm].
  assert (Hcap : capacity (NewFilter c) = nextPowerOf2 c).
  { unfold capacity, NewFilter. simpl. rewrite Hr. unfold defaultBucketSize. exact Hm. }
  split; [exists (k - 2); split; [lia|]; unfold NewFilter; simpl; rewrite Hr; exact Hd|].
  split; [reflexivity|]. split; [reflexivity|]. split; [reflexivity|].
  split; [apply occupancy_initBuckets|].
  split; [exact Hcap|].
  intros Hc. rewrite Hcap.
  destruct (nextPowerOf2_cases c) as [(k' & _ & Hr' & Hle & _)|(Hbig & _)];
    [rewrite Hr'; exact Hle|lia].
Qed.

(** ** The contracts of the bucket operations *)

Lemma addToBucket_fills b fp :
  containsIn b emptyFingerprint = true ->
  exists k, b !! k = Some emptyFingerprint
    /\ (forall j s, (j < k)%nat -> b !! j = Some s -> s <> emptyFingerprint)
    /\ addToBucket b fp = (true, <[k := fp]> b).
Proof.
  induction b as [|s b IH]; simpl; [discriminate|].
  destruct (s =? emptyFingerprint) eqn:E; simpl.
  - intros _. apply Z.eqb_eq in E. subst s. exists O.
    split; [reflexivity|]. split; [intros j s Hj; lia|reflexivity].
  - intros Hc. destruct (IH Hc) as (k & Hk & Hfirst & Hd).
    exists (S k). split; [exact Hk|]. split.
    + intros [|j] s' Hj Hs; simpl in Hs.
      * injection Hs as <-. apply Z.eqb_neq. exact E.
      * apply (Hfirst j s'); [lia|exact Hs].
    + rewrite Hd. reflexivity.
Qed.

Lemma pair_eta {A B} (p : A * B) : p = (p.1, p.2).
Proof. destruct p; reflexivity. Qed.

(** X4: [addToBucket] writes the fingerprint into the first empty slot and
    changes no other; on a bucket without an empty slot it returns false
    and leaves the bucket as it was. *)
Theorem addToBucket_first_empty b fp :
  (containsIn b emptyFingerprint = false -> addToBucket b fp = (false, b))
  /\ (containsIn b emptyFingerprint = true ->
      exists k, b !! k = Some emptyFingerprint
        /\ (forall j s, (j < k)%nat -> b !! j = Some s -> s <> emptyFingerprint)
        /\ addToBucket b fp = (true, <[k := fp]> b)).
Proof.
  split; [|apply addToBucket_fills].
  intros Hf. rewrite (pair_eta (addToBucket b fp)).
  rewrite addToBucket_ok, Hf, (addToBucket_full _ _ Hf). reflexivity.
Qed.

(** X5: [deleteFrom] sets the first slot that holds the fingerprint to the
    sentinel and changes no other, duplicates included; on a bucket that
    does not hold it, it returns false and leaves the bucket as it was. *)
Theorem deleteFrom_first_match b fp :
  (containsIn b fp = false -> deleteFrom b fp = (false, b))
  /\ (containsIn b fp = true ->
      exists k, b !! k = Some fp
        /\ (forall j s, (j < k)%nat -> b !! j = Some s -> s <> fp)
        /\ deleteFrom b fp = (true, <[k := emptyFingerprint]> b)).
Proof.
  split.
  - intros Hf. rewrite (pair_eta (deleteFrom b fp)).
    rewrite deleteFrom_ok, Hf, (deleteFrom_absent _ _ Hf). reflexivity.
  - intros Hc. destruct (deleteFrom_clears b fp Hc) as (k & Hk & Hfirst & Hd).
    exists k. split; [exact Hk|]. split; [exact Hfirst|].
    rewrite (pair_eta (deleteFrom b fp)), deleteFrom_ok, Hc, Hd. reflexivity.
Qed.

Lemma containsIn_elem b fp : containsIn b fp = true <-> fp ∈ b.
Proof.
  induction b as [|s b IH]; simpl.
  - split; [discriminate|]. intros Hin. inversion Hin.
  - destruct (s =? fp) eqn:E.
    + apply Z.eqb_eq in E. subst s. split; [intros _; left|reflexivity].
    + apply Z.eqb_neq in E. rewrite IH. split.
      * intros Hin. right. exact Hin.
      * intros Hin. inversion Hin; subst; [congruence|assumption].
Qed.

(** ** Calls on a well-formed filter *)

Lemma containsIn_replicate n fp :
  containsIn (replicate n emptyFingerprint) fp
  = ((0 <? Z.of_nat n) && (fp =? emptyFingerprint)).
Proof.
  induction n as [|n IH]; [reflexivity|].
  change (containsIn (replicate (S n) emptyFingerprint) fp)
    with (if emptyFingerprint =? fp then true
          else containsIn (replicate n emptyFingerprint) fp).
  rewrite IH.
  assert (E : (0 <? Z.of_nat (S n)) = true) by (apply Z.ltb_lt; lia). rewrite E.
  rewrite (Z.eqb_sym emptyFingerprint fp).
  destruct (fp =? emptyFingerprint); [reflexivity|].
  rewrite andb_false_r. reflexivity.
Qed.

Section Calls.

Context {H : Hash32}.
Variable rnd : nat -> Z.

Lemma run_safe ops : forall w,
  wf (filt w) ->
  exists res w',
    run rnd ops w = Some (res, w')
    /\ length res = length ops /\ wf (filt w') /\ frame w w'.
Proof.
  induction ops as [|o ops IH]; intros w Hwf.
  - exists [], w. split; [reflexivity|]. split; [reflexivity|].
    split; [exact Hwf|apply frame_refl].
  - destruct (step_total rnd o w Hwf) as (ok & w1 & d & Hstep & Hwf1 & Hfr1 & _).
    destruct (IH w1 Hwf1) as (res & w' & Hrun & Hlen & Hwf' & Hfr).
    exists (ok :: res), w'. split.
    { simpl run. rewrite (bind_eq _ _ _ _ _ Hstep), (bind_eq _ _ _ _ _ Hrun).
      reflexivity. }
    split; [simpl; rewrite Hlen; reflexivity|].
    split; [exact Hwf'|exact (frame_trans _ _ _ Hfr1 Hfr)].
Qed.

(** X6: on a well-formed filter no sequence of Insert, InsertUnique, Lookup
    and Delete calls panics (no index out of range, no division by zero, no
    rand.Intn of 0): every call returns a boolean, and the table is never
    resized: bucketSize, totalBuckets, maxKicks, the number of buckets and
    the length of each bucket stay as they were. *)
Theorem calls_never_panic ops w :
  wf (filt w) ->
  exists res w',
    run rnd ops w = Some (res, w')
    /\ length res = length ops /\ wf (filt w')
    /\ bucketSize (filt w') = bucketSize (filt w)
    /\ totalBuckets (filt w') = totalBuckets (filt w)
    /\ maxKicks (filt w') = maxKicks (filt w).
Proof.
  intros Hwf. destruct (run_safe ops w Hwf) as (res & w' & Hrun & Hlen & Hwf' & Hfr).
  exists res, w'. unfold frame in Hfr. tauto.
Qed.

(** X7: Lookup and Count only read: on a well-formed filter Lookup returns
    and leaves the whole state as it was, and Count returns the counter. *)
Theorem lookup_is_read_only x w :
  wf (filt w) ->
  (exists r, Lookup x w = Some (r, w)) /\ Count w = Some (count (filt w), w).
Proof.
  intros Hwf. split; [|reflexivity].
  unfold Lookup. destruct (check x) as [x'|].
  - apply lookup_total, Hwf.
  - exists false. reflexivity.
Qed.

(** X8: on a fresh filter Lookup of a non-empty item returns true exactly
    when the fingerprint of the item is 0, the value of the empty slots. *)
Theorem lookup_on_fresh tb bs x x' :
  0 < tb -> 0 < bs -> check x = Some x' ->
  exists fp, item_fp x = Some fp
    /\ Lookup x (initWorld (newFilter tb bs))
       = Some (fp =? emptyFingerprint, initWorld (newFilter tb bs)).
Proof.
  intros Htb Hbs Hc.
  pose proof (wf_newFilter tb bs Htb Hbs) as Hwf.
  set (w := initWorld (newFilter tb bs)).
  destruct (locate_wf x' (filt w) Hwf) as (fp & i1 & i2 & Hloc & Hi1 & Hi2).
  assert (Hrep : forall i, 0 <= i < tb ->
            buckets (filt w) !! Z.to_nat i = Some (replicate (Z.to_nat bs) emptyFingerprint)).
  { intros i Hi. simpl. unfold initBuckets. apply lookup_replicate.
    split; [reflexivity|lia]. }
  exists fp. split; [exact (item_fp_locate x x' _ _ _ _ Hc Hloc)|].
  unfold Lookup. rewrite Hc.
  rewrite (lookup_eq x' w fp i1 i2 _ _ Hloc (proj1 Hi1) (proj1 Hi2)
             (Hrep i1 Hi1) (Hrep i2 Hi2)).
  rewrite containsIn_replicate.
  assert (E : (0 <? Z.of_nat (Z.to_nat bs)) = true) by (apply Z.ltb_lt; lia).
  rewrite E. simpl. rewrite orb_diag. reflexivity.
Qed.

(** X9: Delete succeeds exactly when the Lookup just before it does; a
    failed Delete changes nothing, a successful one takes 1 off the counter
    (modulo 2^32). *)
Theorem delete_mirrors_lookup x w :
  wf (filt w) ->
  exists r w',
    Lookup x w = Some (r, w) /\ Delete x w = Some (r, w')
    /\ (r = false -> w' = w)
    /\ (r = true -> count (filt w') = wrap32 (count (filt w) - 1)).
Proof.
  intros Hwf. unfold Lookup, Delete. destruct (check x) as [x'|].
  - destruct (locate_wf x' _ Hwf) as (fp & i1 & i2 & Hloc & Hi1 & Hi2).
    destruct (wf_index _ _ Hwf Hi1) as (b1 & Hb1 & _).
    destruct (wf_index _ _ Hwf Hi2) as (b2 & Hb2 & _).
    rewrite (lookup_eq x' w fp i1 i2 b1 b2 Hloc (proj1 Hi1) (proj1 Hi2) Hb1 Hb2).
    destruct (containsIn b1 fp) eqn:Hc1; [|destruct (containsIn b2 fp) eqn:Hc2].
    + exists true. eexists. split; [reflexivity|].
      split; [apply (deleteItem_first x' w fp i1 i2 b1 Hloc (proj1 Hi1) Hb1 Hc1)|].
      split; [discriminate|]. intros _. reflexivity.
    + exists true. eexists. split; [reflexivity|].
      split; [apply (deleteItem_second x' w fp i1 i2 b1 b2 Hloc (proj1 Hi1) (proj1 Hi2)
                       Hb1 Hb2 Hc1 Hc2)|].
      split; [discriminate|]. intros _. reflexivity.
    + exists false, w. split; [reflexivity|].
      split; [apply (deleteItem_none x' w fp i1 i2 b1 b2 Hloc (proj1 Hi1) (proj1 Hi2)
                       Hb1 Hb2 Hc1 Hc2)|].
      split; [reflexivity|discriminate].
  - exists false, w. repeat split. discriminate.
Qed.

(** X10: every call changes the number of occupied slots by what it changes
    the counter, when the fingerprint of its item is not 0: a successful
    Insert, through the eviction loop or not, adds one occupied slot, a
    failed one none (relocation steps keep the occupancy), a successful
    Delete frees one. *)
Theorem occupancy_follows_counter o w :
  wf (filt w) -> item_fp (op_item o) <> Some emptyFingerprint ->
  exists ok w' d,
    step rnd o w = Some (ok, w')
    /\ accounted o ok d
    /\ occupancy (buckets (filt w')) = occupancy (buckets (filt w)) + d
    /\ count (filt w') = bumped (count (filt w)) d.
Proof.
  intros Hwf Hfp.
  destruct (step_total rnd o w Hwf) as (ok & w' & d & Hstep & _ & _ & Hacc & Hcnt & _ & Hocc).
  exists ok, w', d. split; [exact Hstep|]. split; [exact Hacc|].
  split; [exact (Hocc Hfp)|exact Hcnt].
Qed.

(** X11: Lookup(x) returns true exactly when the fingerprint of x stands in
    a slot of one of its two candidate buckets. *)
Theorem lookup_true_iff x x' w fp i1 i2 :
  wf (filt w) -> check x = Some x' ->
  locate x' (filt w) = Some (fp, i1, i2) ->
  (Lookup x w = Some (true, w)
   <-> fp ∈ bucket_of (filt w) i1 \/ fp ∈ bucket_of (filt w) i2)
  /\ (Lookup x w = Some (false, w)
      <-> ~ (fp ∈ bucket_of (filt w) i1 \/ fp ∈ bucket_of (filt w) i2)).
Proof.
  intros Hwf Hc Hloc.
  destruct (locate_wf x' _ Hwf) as (fp' & j1 & j2 & Hloc' & Hi1 & Hi2).
  rewrite Hloc in Hloc'. injection Hloc' as <- <- <-.
  destruct (wf_index _ _ Hwf Hi1) as (b1 & Hb1 & _).
  destruct (wf_index _ _ Hwf Hi2) as (b2 & Hb2 & _).
  unfold Lookup. rewrite Hc.
  rewrite (lookup_eq x' w fp i1 i2 b1 b2 Hloc (proj1 Hi1) (proj1 Hi2) Hb1 Hb2).
  rewrite (bucket_of_lookup _ _ _ Hb1), (bucket_of_lookup _ _ _ Hb2).
  rewrite <- !containsIn_elem.
  pose proof (orb_true_iff (containsIn b1 fp) (containsIn b2 fp)) as Hor.
  split; rewrite <- Hor.
  - split; [intros [= E]; exact E|intros ->; reflexivity].
  - split; [intros [= E]; rewrite E; discriminate|].
    intros E. destruct (containsIn b1 fp || containsIn b2 fp);
      [exfalso; apply E; reflexivity|reflexivity].
Qed.

Lemma lookup_via_locate x w :
  lookup x w =
  match locate x (filt w) with
  | Some (fp, i1, i2) =>
      (let* b1 := bucketAt i1 in
       if containsIn b1 fp then ret true
       else
         let* b2 := bucketAt i2 in
         if containsIn b2 fp then ret true else ret false) w
  | None => None
  end.
Proof.
  unfold lookup, locate. destruct (hashOf x) as [xh xb].
  destruct (fingerprintOf xb) as [[fp fph]|]; simpl; [|reflexivity].
  unfold bind at 1. simpl. unfold bind at 1. simpl.
  destruct (indicesOf xh fph (totalBuckets (filt w))) as [[i1 i2]|]; reflexivity.
Qed.

(** Lookup sees an item only through its fingerprint and its two indices. *)
Lemma lookup_same_locate x x' y y' w :
  check x = Some x' -> check y = Some y' ->
  locate x' (filt w) = locate y' (filt w) ->
  Lookup x w = Lookup y w.
Proof.
  intros Hx Hy Hloc. unfold Lookup. rewrite Hx, Hy.
  rewrite !lookup_via_locate, Hloc. reflexivity.
Qed.

(** X12: false positives: after an Insert(x) that returned true without a
    relocation step, Lookup(y) returns true for every item y with the
    fingerprint and the candidate buckets of x, inserted or not; a single
    byte and the same byte after a zero byte are such a pair. *)
Theorem lookup_false_positive x x' y y' w w' :
  wf (filt w) -> check x = Some x' -> check y = Some y' ->
  locate x' (filt w) = locate y' (filt w) ->
  Insert rnd x w = Some (true, w') -> swaps w' = swaps w ->
  Lookup y w' = Some (true, w').
Proof.
  intros Hwf Hx Hy Hloc Hins Hsw.
  assert (Hfr : frame w w').
  { unfold Insert in Hins. rewrite Hx in Hins.
    destruct (insert_total rnd x' w Hwf) as (ok & w0 & Hrun & _ & Hfr & _).
    rewrite Hins in Hrun. injection Hrun as _ <-. exact Hfr. }
  rewrite <- (lookup_same_locate x x' y y' w' Hx Hy).
  - exact (direct_insert_found rnd x w w' Hwf Hins Hsw).
  - rewrite !(locate_frame _ w w' Hfr). exact Hloc.
Qed.

End Calls.

Lemma calls_never_panic_witness :
  exists res w',
    run rnd0 [OpInsert item_e; OpInsertUnique zero_item; OpDelete item_a; OpLookup item_b]
        full1 = Some (res, w')
    /\ length res
       = length [OpInsert item_e; OpInsertUnique zero_item; OpDelete item_a; OpLookup item_b]
    /\ wf (filt w')
    /\ bucketSize (filt w') = bucketSize (filt full1)
    /\ totalBuckets (filt w') = totalBuckets (filt full1)
    /\ maxKicks (filt w') = maxKicks (filt full1).
Proof. apply (calls_never_panic rnd0 _ full1). exact wf_full1. Defined.

Lemma lookup_is_read_only_witness :
  (exists r, Lookup item_a full1 = Some (r, full1))
  /\ Count full1 = Some (count (filt full1), full1).
Proof. apply (lookup_is_read_only item_a full1). exact wf_full1. Defined.

Lemma lookup_on_fresh_witness :
  exists fp, item_fp zero_item = Some fp
    /\ Lookup zero_item (initWorld (newFilter 1 4))
       = Some (fp =? emptyFingerprint, initWorld (newFilter 1 4)).
Proof. apply (lookup_on_fresh 1 4 zero_item zero_item); [lia|lia|reflexivity]. Defined.

Lemma delete_mirrors_lookup_witness :
  exists r w',
    Lookup item_a full1 = Some (r, full1) /\ Delete item_a full1 = Some (r, w')
    /\ (r = false -> w' = full1)
    /\ (r = true -> count (filt w') = wrap32 (count (filt full1) - 1)).
Proof. apply (delete_mirrors_lookup item_a full1). exact wf_full1. Defined.

Lemma occupancy_follows_counter_witness :
  exists ok w' d,
    step rnd0 (OpInsert item_e) full1 = Some (ok, w')
    /\ accounted (OpInsert item_e) ok d
    /\ occupancy (buckets (filt w')) = occupancy (buckets (filt full1)) + d
    /\ count (filt w') = bumped (count (filt full1)) d.
Proof.
  apply (occupancy_follows_counter rnd0 (OpInsert item_e) full1); [exact wf_full1|].
  vm_compute. discriminate.
Defined.

Lemma lookup_true_iff_witness :
  (Lookup item_a full1 = Some (true, full1)
   <-> 58217 ∈ bucket_of (filt full1) 0 \/ 58217 ∈ bucket_of (filt full1) 0)
  /\ (Lookup item_a full1 = Some (false, full1)
      <-> ~ (58217 ∈ bucket_of (filt full1) 0 \/ 58217 ∈ bucket_of (filt full1) 0)).
Proof.
  apply (lookup_true_iff item_a item_0a full1 58217 0 0);
    [exact wf_full1|reflexivity|vm_compute; reflexivity].
Defined.

Lemma lookup_false_positive_witness :
  Lookup item_0a once1 = Some (true, once1).
Proof.
  apply (lookup_false_positive rnd0 item_a item_0a item_0a item_0a fresh1 once1);
    [exact wf_fresh1|reflexivity|reflexivity|reflexivity|vm_compute; reflexivity
    |reflexivity].
Defined.

(** ** Partial-key hashing *)

(** ** Partial-key hashing *)

Lemma lxor_mod_pow2 a b k :
  0 <= k -> Z.lxor (Z.lxor a b mod 2 ^ k) b mod 2 ^ k = a mod 2 ^ k.
Proof.
  intros Hk. apply Z.bits_inj'. intros n Hn.
  destruct (Z_lt_dec n k) as [Hlt|Hge].
  - rewrite !Z.mod_pow2_bits_low by lia.
    rewrite Z.lxor_spec, Z.mod_pow2_bits_low by lia.
    rewrite Z.lxor_spec. destruct (Z.testbit a n), (Z.testbit b n); reflexivity.
  - rewrite !Z.mod_pow2_bits_high by lia. reflexivity.
Qed.

(** X13: over a power-of-two number of buckets, as [NewFilter] and
    [StdFilter] give, the two indices of [indicesOf] are in range and each
    is the other xor the fingerprint hash, modulo the number of buckets:
    the first index can be recomputed from the second. *)
Theorem indices_are_alternates xh fph k i1 i2 :
  0 <= k -> indicesOf xh fph (2 ^ k) = Some (i1, i2) ->
  0 <= i1 < 2 ^ k /\ 0 <= i2 < 2 ^ k
  /\ i2 = Z.lxor i1 fph mod 2 ^ k /\ i1 = Z.lxor i2 fph mod 2 ^ k.
Proof.
  intros Hk Hidx. unfold indicesOf in Hidx.
  assert (Hpos : 0 < 2 ^ k) by (apply Z.pow_pos_nonneg; lia).
  destruct (2 ^ k =? 0) eqn:E; [apply Z.eqb_eq in E; lia|].
  injection Hidx as <- <-.
  split; [apply Z.mod_pos_bound; exact Hpos|].
  split; [apply Z.mod_pos_bound; exact Hpos|].
  split; [reflexivity|].
  rewrite lxor_mod_pow2 by exact Hk.
  symmetry. apply Z.mod_small. apply Z.mod_pos_bound. exact Hpos.
Qed.

Lemma indices_are_alternates_witness :
  0 <= 5 < 2 ^ 3 /\ 0 <= 6 < 2 ^ 3
  /\ 6 = Z.lxor 5 11 mod 2 ^ 3 /\ 5 = Z.lxor 6 11 mod 2 ^ 3.
Proof.
  apply (indices_are_alternates 13 11 3 5 6); [lia|reflexivity].
Defined.

(** ** Insertions that do not relocate *)

Lemma addToBucket_keeps b fp g :
  fp <> emptyFingerprint -> containsIn b fp = true ->
  containsIn (addToBucket b g).2 fp = true.
Proof.
  intros Hfp. induction b as [|s b IH]; simpl; [discriminate|].
  destruct (s =? fp) eqn:E.
  - intros _. apply Z.eqb_eq in E. subst s.
    assert (E0 : (fp =? emptyFingerprint) = false) by (apply Z.eqb_neq; exact Hfp).
    rewrite E0. simpl. destruct (addToBucket b g) as [ok b'']. simpl.
    rewrite Z.eqb_refl. reflexivity.
  - intros Hc. specialize (IH Hc).
    destruct (s =? emptyFingerprint) eqn:E1; simpl.
    + destruct (g =? fp); [reflexivity|exact Hc].
    + destruct (addToBucket b g) as [ok b'']. simpl in *. rewrite E. exact IH.
Qed.

(** Filling an empty slot and deleting the fingerprint again gives the
    bucket back, when it did not hold the fingerprint before. *)
Lemma add_then_delete b fp :
  containsIn b emptyFingerprint = true -> containsIn b fp = false ->
  (deleteFrom (addToBucket b fp).2 fp).2 = b.
Proof.
  induction b as [|s b IH]; simpl; [discriminate|].
  destruct (s =? emptyFingerprint) eqn:E; simpl.
  - intros _ _. rewrite Z.eqb_refl. simpl.
    apply Z.eqb_eq in E. subst s. reflexivity.
  - destruct (s =? fp) eqn:E1; [discriminate|].
    intros Hc Hf. specialize (IH Hc Hf).
    destruct (addToBucket b fp) as [ok b'']. simpl in *. rewrite E1. simpl.
    destruct (deleteFrom b'' fp) as [ok' b3]. simpl in *. rewrite IH. reflexivity.
Qed.

Lemma wrap32_succ_pred c : wrap32 (wrap32 (c + 1) + -1) = wrap32 c.
Proof.
  unfold wrap32. rewrite Zplus_mod_idemp_l. f_equal. lia.
Qed.

Section Direct.

Context {H : Hash32}.
Variable rnd : nat -> Z.

(** X14: an Insert that makes no relocation step only fills an empty slot:
    an item whose fingerprint is not 0 and that Lookup finds is still found
    afterwards, whatever item was inserted. *)
Theorem direct_insert_keeps_members x y w ok w' :
  wf (filt w) -> item_fp x <> Some emptyFingerprint ->
  Lookup x w = Some (true, w) ->
  Insert rnd y w = Some (ok, w') -> swaps w' = swaps w ->
  Lookup x w' = Some (true, w').
Proof.
  intros Hwf Hnz Hlk Hins Hsw. unfold Lookup in *.
  destruct (check x) as [x'|] eqn:Hx; [|discriminate].
  destruct (locate_wf x' _ Hwf) as (fp & i1 & i2 & Hloc & Hi1 & Hi2).
  destruct (wf_index _ _ Hwf Hi1) as (b1 & Hb1 & _).
  destruct (wf_index _ _ Hwf Hi2) as (b2 & Hb2 & _).
  assert (Hfp : fp <> emptyFingerprint).
  { intros ->. apply Hnz. exact (item_fp_locate x x' _ _ _ _ Hx Hloc). }
  rewrite (lookup_eq x' w fp i1 i2 b1 b2 Hloc (proj1 Hi1) (proj1 Hi2) Hb1 Hb2) in Hlk.
  injection Hlk as Hlk.
  pose proof (wf_buckets _ Hwf) as Hlen.
  assert (Hgoal : forall j cj g c,
            0 <= j < totalBuckets (filt w) ->
            buckets (filt w) !! Z.to_nat j = Some cj ->
            lookup x' (with_count c (with_bucket j (addToBucket cj g).2 w))
            = Some (true, with_count c (with_bucket j (addToBucket cj g).2 w))).
  { intros j cj g c Hj Hcj.
    assert (Hb : forall i b, 0 <= i < totalBuckets (filt w) ->
              buckets (filt w) !! Z.to_nat i = Some b ->
              exists b', buckets (filt (with_count c (with_bucket j (addToBucket cj g).2 w)))
                           !! Z.to_nat i = Some b'
                /\ (containsIn b fp = true -> containsIn b' fp = true)).
    { intros i b Hi Hb. rewrite lookup_with_bucket by lia.
      destruct (decide (Z.to_nat j = Z.to_nat i)) as [E|E].
      - exists (addToBucket cj g).2. split; [reflexivity|].
        rewrite E in Hcj. assert (cj = b) as -> by congruence.
        apply addToBucket_keeps, Hfp.
      - exists b. split; [exact Hb|auto]. }
    destruct (Hb i1 b1 Hi1 Hb1) as (b1' & Hb1' & K1).
    destruct (Hb i2 b2 Hi2 Hb2) as (b2' & Hb2' & K2).
    rewrite (lookup_eq x' (with_count c (with_bucket j (addToBucket cj g).2 w))
               fp i1 i2 b1' b2' Hloc (proj1 Hi1) (proj1 Hi2) Hb1' Hb2').
    apply orb_true_iff in Hlk as [E|E].
    - rewrite (K1 E). reflexivity.
    - rewrite (K2 E), orb_true_r. reflexivity. }
  unfold Insert in Hins. destruct (check y) as [y'|].
  - destruct (locate_wf y' _ Hwf) as (g & j1 & j2 & Hlocy & Hj1 & Hj2).
    destruct (wf_index _ _ Hwf Hj1) as (c1 & Hc1 & _).
    destruct (wf_index _ _ Hwf Hj2) as (c2 & Hc2 & _).
    destruct (insert_no_swap rnd y' w ok w' g j1 j2 c1 c2 Hwf Hlocy Hc1 Hc2 Hins Hsw)
      as [(_ & _ & ->)|[(_ & _ & _ & ->)|(_ & _ & _ & Hsame)]].
    + apply Hgoal; assumption.
    + apply Hgoal; assumption.
    + assert (Hloc' : locate x' (filt w') = Some (fp, i1, i2)) by (rewrite Hsame; exact Hloc).
      rewrite <- Hsame in Hb1, Hb2.
      rewrite (lookup_eq x' w' fp i1 i2 b1 b2 Hloc' (proj1 Hi1) (proj1 Hi2) Hb1 Hb2).
      rewrite Hlk. reflexivity.
  - injection Hins as _ <-.
    rewrite (lookup_eq x' w fp i1 i2 b1 b2 Hloc (proj1 Hi1) (proj1 Hi2) Hb1 Hb2).
    rewrite Hlk. reflexivity.
Qed.

(** X15: round trip: on a well-formed filter in which Lookup(x) is false,
    an Insert(x) that returned true without a relocation step followed by
    Delete(x) gives every bucket back as it was, and the counter modulo
    2^32; that Delete returns true. *)
Theorem insert_delete_round_trip x w w1 :
  wf (filt w) -> Lookup x w = Some (false, w) ->
  Insert rnd x w = Some (true, w1) -> swaps w1 = swaps w ->
  exists w2,
    Delete x w1 = Some (true, w2)
    /\ buckets (filt w2) = buckets (filt w)
    /\ count (filt w2) = wrap32 (count (filt w)).
Proof.
  intros Hwf Hlk Hins Hsw. unfold Lookup, Insert in *. unfold Delete.
  destruct (check x) as [x'|] eqn:Hx; [|discriminate].
  destruct (locate_wf x' _ Hwf) as (fp & i1 & i2 & Hloc & Hi1 & Hi2).
  destruct (wf_index _ _ Hwf Hi1) as (b1 & Hb1 & _).
  destruct (wf_index _ _ Hwf Hi2) as (b2 & Hb2 & _).
  pose proof (wf_buckets _ Hwf) as Hlen.
  rewrite (lookup_eq x' w fp i1 i2 b1 b2 Hloc (proj1 Hi1) (proj1 Hi2) Hb1 Hb2) in Hlk.
  injection Hlk as Hlk. apply orb_false_iff in Hlk as [Hf1 Hf2].
  destruct (insert_no_swap rnd x' w true w1 fp i1 i2 b1 b2 Hwf Hloc Hb1 Hb2 Hins Hsw)
    as [(Hc1 & _ & ->)|[(Hc1 & Hc2 & _ & ->)|(_ & _ & E & _)]]; [| |discriminate].
  - set (w1 := with_count (wrap32 (count (filt w) + 1))
                 (with_bucket i1 (addToBucket b1 fp).2 w)).
    assert (Hl1 : buckets (filt w1) !! Z.to_nat i1 = Some (addToBucket b1 fp).2).
    { unfold w1. rewrite lookup_with_bucket by lia.
      rewrite decide_True by reflexivity. reflexivity. }
    eexists. split.
    { apply (deleteItem_first x' w1 fp i1 i2 _ Hloc (proj1 Hi1) Hl1).
      apply addToBucket_contains, Hc1. }
    split.
    + simpl. rewrite (add_then_delete b1 fp Hc1 Hf1).
      rewrite list_insert_insert_eq. apply list_insert_id, Hb1.
    + simpl. apply wrap32_succ_pred.
  - assert (Hne : Z.to_nat i1 <> Z.to_nat i2).
    { intros E. rewrite E in Hb1. congruence. }
    set (w1 := with_count (wrap32 (count (filt w) + 1))
                 (with_bucket i2 (addToBucket b2 fp).2 w)).
    assert (Hl2 : buckets (filt w1) !! Z.to_nat i2 = Some (addToBucket b2 fp).2).
    { unfold w1. rewrite lookup_with_bucket by lia.
      rewrite decide_True by reflexivity. reflexivity. }
    assert (Hl1 : buckets (filt w1) !! Z.to_nat i1 = Some b1).
    { unfold w1. rewrite lookup_with_bucket by lia.
      rewrite decide_False by (intros E; apply Hne; symmetry; exact E). exact Hb1. }
    eexists. split.
    { apply (deleteItem_second x' w1 fp i1 i2 b1 _ Hloc (proj1 Hi1) (proj1 Hi2) Hl1 Hl2 Hf1).
      apply addToBucket_contains, Hc2. }
    split.
    + simpl. rewrite (add_then_delete b2 fp Hc2 Hf2).
      rewrite list_insert_insert_eq. apply list_insert_id, Hb2.
    + simpl. apply wrap32_succ_pred.
Qed.

End Direct.

Lemma wf_once1 : wf (filt once1).
Proof.
  apply wf_with_count, (wf_with_bucket 0 [0; 0; 0; 0]);
    [exact wf_fresh1|reflexivity|reflexivity].
Qed.

Lemma direct_insert_keeps_members_witness :
  Lookup item_a (with_count 2 (with_bucket 0 [58217; 62543; 0; 0] once1))
  = Some (true, with_count 2 (with_bucket 0 [58217; 62543; 0; 0] once1)).
Proof.
  apply (direct_insert_keeps_members rnd0 item_a item_b once1 true).
  - exact wf_once1.
  - vm_compute. discriminate.
  - vm_compute. reflexivity.
  - vm_compute. reflexivity.
  - reflexivity.
Defined.

Lemma insert_delete_round_trip_witness :
  exists w2,
    Delete item_a once1 = Some (true, w2)
    /\ buckets (filt w2) = buckets (filt fresh1)
    /\ count (filt w2) = wrap32 (count (filt fresh1)).
Proof.
  apply (insert_delete_round_trip rnd0 item_a fresh1 once1);
    [exact wf_fresh1|vm_compute; reflexivity|vm_compute; reflexivity|reflexivity].
Defined.

(** ** What the slots hold *)

Lemma addToBucket_Forall (P : Z -> Prop) b fp :
  Forall P b -> P fp -> Forall P (addToBucket b fp).2.
Proof.
  intros Hb Hfp. induction Hb as [|s b Hs Hb IH]; simpl; [constructor|].
  destruct (s =? emptyFingerprint); simpl.
  - constructor; assumption.
  - destruct (addToBucket b fp) as [ok b'']. simpl in *. constructor; assumption.
Qed.

Lemma deleteFrom_Forall (P : Z -> Prop) b fp :
  Forall P b -> P emptyFingerprint -> Forall P (deleteFrom b fp).2.
Proof.
  intros Hb H0. induction Hb as [|s b Hs Hb IH]; simpl; [constructor|].
  destruct (s =? fp); simpl.
  - constructor; assumption.
  - destruct (deleteFrom b fp) as [ok b'']. simpl in *. constructor; assumption.
Qed.

Lemma slots_all_with_bucket P i b' w :
  slots_all P (filt w) -> Forall P b' -> slots_all P (filt (with_bucket i b' w)).
Proof. intros Hall Hb. unfold slots_all. simpl. apply Forall_insert; assumption. Qed.

Lemma slots_all_lookup P f i b :
  slots_all P f -> buckets f !! i = Some b -> Forall P b.
Proof. intros Hall Hb. exact (proj1 (Forall_lookup _ _) Hall _ _ Hb). Qed.

Section Contents.

Context {H : Hash32}.
Variable rnd : nat -> Z.

Lemma insert_loop_slots (P : Z -> Prop) n : forall ri fp w ok w',
  wf (filt w) -> 0 <= ri < totalBuckets (filt w) ->
  P fp -> slots_all P (filt w) ->
  insert_loop rnd n ri fp w = Some (ok, w') -> slots_all P (filt w').
Proof.
  induction n as [|n IH]; intros ri fp w ok w' Hwf Hri Hfp Hall Hrun.
  - injection Hrun as _ <-. exact Hall.
  - destruct (wf_index _ _ Hwf Hri) as (b & Hb & Hlen).
    pose proof (wf_size _ Hwf) as Hsz. pose proof (wf_total _ Hwf) as Htb.
    destruct (replaceItem_eq rnd ri fp w b) as (rfp & Hr & Hrep);
      [lia|exact Hb|lia|lia|].
    set (k := Z.to_nat (rnd (draws w) mod Z.of_nat (length b))) in *.
    set (j := Z.lxor ri (sum32 (be_put_uint16 fp)) mod totalBuckets (filt w)) in *.
    set (w1 := after_swap ri k fp b w) in *.
    assert (Hwf1 : wf (filt w1)) by (apply wf_after_swap; assumption).
    assert (Hj : 0 <= j < totalBuckets (filt w1))
      by (apply Z.mod_pos_bound; exact Htb).
    destruct (wf_index _ _ Hwf1 Hj) as (bj & Hbj & _).
    pose proof (slots_all_lookup P _ _ _ Hall Hb) as HPb.
    assert (Hrfp : P rfp) by exact (proj1 (Forall_lookup _ _) HPb _ _ Hr).
    assert (Hall1 : slots_all P (filt w1)).
    { unfold slots_all. simpl. apply Forall_insert; [exact Hall|].
      apply Forall_insert; assumption. }
    pose proof (slots_all_lookup P _ _ _ Hall1 Hbj) as HPbj.
    simpl insert_loop in Hrun. rewrite (bind_eq _ _ _ _ _ Hrep) in Hrun.
    rewrite (bind_eq _ _ _ _ _ (onBucket_eq addToBucket j rfp w1 bj (proj1 Hj) Hbj)) in Hrun.
    assert (Hall2 : slots_all P (filt (with_bucket j (addToBucket bj rfp).2 w1)))
      by (apply slots_all_with_bucket; [exact Hall1|apply addToBucket_Forall; assumption]).
    destruct (addToBucket bj rfp).1.
    + injection Hrun as _ <-. exact Hall2.
    + apply (IH j rfp (with_bucket j (addToBucket bj rfp).2 w1) ok w');
        try assumption.
      apply (wf_with_bucket j bj); [exact Hwf1|exact Hbj|apply addToBucket_length].
Qed.

Lemma insert_slots (P : Z -> Prop) x w ok w' fp i1 i2 :
  wf (filt w) -> locate x (filt w) = Some (fp, i1, i2) ->
  P fp -> slots_all P (filt w) ->
  insert rnd x w = Some (ok, w') -> slots_all P (filt w').
Proof.
  intros Hwf Hloc Hfp Hall Hins.
  destruct (locate_wf x _ Hwf) as (fp' & j1 & j2 & Hloc' & Hi1 & Hi2).
  rewrite Hloc in Hloc'. injection Hloc' as <- <- <-.
  destruct (wf_index _ _ Hwf Hi1) as (b1 & Hb1 & _).
  destruct (wf_index _ _ Hwf Hi2) as (b2 & Hb2 & _).
  destruct (containsIn b1 emptyFingerprint) eqn:Hc1;
    [|destruct (containsIn b2 emptyFingerprint) eqn:Hc2].
  - rewrite (insert_first rnd x w fp i1 i2 b1 Hloc (proj1 Hi1) Hb1 Hc1) in Hins.
    injection Hins as _ <-.
    apply (slots_all_with_bucket P i1 _ w Hall).
    apply addToBucket_Forall; [exact (slots_all_lookup P _ _ _ Hall Hb1)|exact Hfp].
  - rewrite (insert_second rnd x w fp i1 i2 b1 b2 Hloc (proj1 Hi1) (proj1 Hi2)
               Hb1 Hb2 Hc1 Hc2) in Hins.
    injection Hins as _ <-.
    apply (slots_all_with_bucket P i2 _ w Hall).
    apply addToBucket_Forall; [exact (slots_all_lookup P _ _ _ Hall Hb2)|exact Hfp].
  - rewrite (insert_evict rnd x w fp i1 i2 b1 b2 Hloc (proj1 Hi1) (proj1 Hi2)
               Hb1 Hb2 Hc1 Hc2) in Hins.
    unfold bind at 1 in Hins. unfold bind at 1 in Hins.
    rewrite (Intn_eq rnd 2 w) in Hins by lia.
    set (ri := if rnd (draws w) mod 2 =? 0 then i1 else i2) in *.
    assert (Hri : 0 <= ri < totalBuckets (filt (after_draw w)))
      by (unfold ri; destruct (rnd (draws w) mod 2 =? 0); assumption).
    destruct (insert_loop rnd (Z.to_nat (maxKicks (filt w))) ri fp (after_draw w))
      as [[ok0 w0]|] eqn:Hloop; [|discriminate].
    pose proof (insert_loop_slots P _ ri fp (after_draw w) ok0 w0 Hwf Hri Hfp Hall Hloop)
      as Hall0.
    unfold bind in Hins. rewrite bump_eq in Hins. injection Hins as _ <-.
    destruct ok0; exact Hall0.
Qed.

(** X16: Insert invents no fingerprint: whatever holds of the fingerprint
    of the item and of every slot before the call holds of every slot
    after it, on the direct path and through any number of relocation
    steps; so a slot afterwards holds a value that was in the table or the
    fingerprint of the item. *)
Theorem insert_invents_nothing (P : Z -> Prop) x w ok w' fp :
  wf (filt w) -> item_fp x = Some fp ->
  P fp -> slots_all P (filt w) ->
  Insert rnd x w = Some (ok, w') -> slots_all P (filt w').
Proof.
  intros Hwf Hitem Hfp Hall Hins. unfold Insert in Hins.
  destruct (check x) as [x'|] eqn:Hc.
  - destruct (locate_wf x' _ Hwf) as (fp' & i1 & i2 & Hloc & _).
    rewrite (item_fp_locate x x' _ _ _ _ Hc Hloc) in Hitem. injection Hitem as ->.
    exact (insert_slots P x' w ok w' fp i1 i2 Hwf Hloc Hfp Hall Hins).
  - injection Hins as _ <-. exact Hall.
Qed.

Lemma item_fp_range {HR : Hash32Range H} x fp :
  item_fp x = Some fp -> 0 <= fp < 2 ^ 16.
Proof.
  unfold item_fp. destruct (check x) as [x'|]; [|discriminate].
  unfold fingerprintOf, hashOf. simpl.
  rewrite (be_uint16_high (sum32 x') (sum32_range x')).
  intros [= <-]. pose proof (sum32_range x') as Hr.
  rewrite Z.shiftr_div_pow2 by lia. split.
  - apply Z.div_pos; lia.
  - apply Z.div_lt_upper_bound; [lia|]. change (2 ^ 16 * 2 ^ 16) with (2 ^ 32). lia.
Qed.

Lemma step_slots {HR : Hash32Range H} o w ok w' :
  wf (filt w) -> slots_all (fun s => 0 <= s < 2 ^ 16) (filt w) ->
  step rnd o w = Some (ok, w') ->
  slots_all (fun s => 0 <= s < 2 ^ 16) (filt w').
Proof.
  intros Hwf Hall Hstep.
  destruct o as [x|x|x|x]; simpl in Hstep.
  - unfold Insert in Hstep. destruct (check x) as [x'|] eqn:Hc;
      [|injection Hstep as _ <-; exact Hall].
    destruct (locate_wf x' _ Hwf) as (fp & i1 & i2 & Hloc & _).
    apply (insert_slots _ x' w ok w' fp i1 i2 Hwf Hloc); try assumption.
    exact (item_fp_range x fp (item_fp_locate x x' _ _ _ _ Hc Hloc)).
  - unfold InsertUnique in Hstep. destruct (check x) as [x'|] eqn:Hc;
      [|injection Hstep as _ <-; exact Hall].
    unfold Lookup in Hstep. rewrite (check_checked _ _ Hc) in Hstep.
    destruct (lookup_total x' w Hwf) as (found & Hlk).
    rewrite (bind_eq _ _ _ _ _ Hlk) in Hstep.
    destruct found; [injection Hstep as _ <-; exact Hall|].
    destruct (locate_wf x' _ Hwf) as (fp & i1 & i2 & Hloc & _).
    apply (insert_slots _ x' w ok w' fp i1 i2 Hwf Hloc); try assumption.
    exact (item_fp_range x fp (item_fp_locate x x' _ _ _ _ Hc Hloc)).
  - unfold Lookup in Hstep. destruct (check x) as [x'|];
      [|injection Hstep as _ <-; exact Hall].
    destruct (lookup_total x' w Hwf) as (found & Hlk).
    rewrite Hlk in Hstep. injection Hstep as _ <-. exact Hall.
  - unfold Delete in Hstep. destruct (check x) as [x'|];
      [|injection Hstep as _ <-; exact Hall].
    destruct (locate_wf x' _ Hwf) as (fp & i1 & i2 & Hloc & Hi1 & Hi2).
    destruct (wf_index _ _ Hwf Hi1) as (b1 & Hb1 & _).
    destruct (wf_index _ _ Hwf Hi2) as (b2 & Hb2 & _).
    assert (H0 : 0 <= emptyFingerprint < 2 ^ 16) by (unfold emptyFingerprint; lia).
    destruct (containsIn b1 fp) eqn:Hc1; [|destruct (containsIn b2 fp) eqn:Hc2].
    + rewrite (deleteItem_first x' w fp i1 i2 b1 Hloc (proj1 Hi1) Hb1 Hc1) in Hstep.
      injection Hstep as _ <-.
      apply (slots_all_with_bucket _ i1 _ w Hall).
      apply deleteFrom_Forall; [exact (slots_all_lookup _ _ _ _ Hall Hb1)|exact H0].
    + rewrite (deleteItem_second x' w fp i1 i2 b1 b2 Hloc (proj1 Hi1) (proj1 Hi2)
                 Hb1 Hb2 Hc1 Hc2) in Hstep.
      injection Hstep as _ <-.
      apply (slots_all_with_bucket _ i2 _ w Hall).
      apply deleteFrom_Forall; [exact (slots_all_lookup _ _ _ _ Hall Hb2)|exact H0].
    + rewrite (deleteItem_none x' w fp i1 i2 b1 b2 Hloc (proj1 Hi1) (proj1 Hi2)
                 Hb1 Hb2 Hc1 Hc2) in Hstep.
      injection Hstep as _ <-. exact Hall.
Qed.

(** X17: with a hash that returns 32-bit digests, every slot holds a 16-bit
    value in every state reached from a fresh filter by Insert,
    InsertUnique, Lookup and Delete calls: the fingerprints never leave the
    range of [uint16]. *)
Theorem slots_stay_uint16 {HR : Hash32Range H} tb bs ops res w' :
  0 < tb -> 0 < bs ->
  run rnd ops (initWorld (newFilter tb bs)) = Some (res, w') ->
  slots_all (fun s => 0 <= s < 2 ^ 16) (filt w').
Proof.
  intros Htb Hbs.
  assert (Hgen : forall ops w res w',
            wf (filt w) -> slots_all (fun s => 0 <= s < 2 ^ 16) (filt w) ->
            run rnd ops w = Some (res, w') ->
            slots_all (fun s => 0 <= s < 2 ^ 16) (filt w')).
  { clear ops res w'. induction ops as [|o ops IH]; intros w res w' Hwf Hall Hrun.
    - injection Hrun as _ <-. exact Hall.
    - destruct (step_total rnd o w Hwf) as (ok & w1 & d & Hstep & Hwf1 & _).
      simpl run in Hrun. rewrite (bind_eq _ _ _ _ _ Hstep) in Hrun.
      apply bind_Some in Hrun as (rs & w2 & Hrest & Hret).
      injection Hret as _ <-.
      exact (IH w1 rs w2 Hwf1 (step_slots o w ok w1 Hwf Hall Hstep) Hrest). }
  apply Hgen; [exact (wf_newFilter tb bs Htb Hbs)|].
  unfold slots_all. simpl. unfold initBuckets.
  apply Forall_replicate, Forall_replicate. unfold emptyFingerprint. lia.
Qed.

(** X18: a table without an empty slot takes no further fingerprint: when
    every slot is occupied, Insert of an item whose fingerprint is not 0
    returns false after exactly maxKicks relocation steps and leaves the
    counter and the number of occupied slots as they were. *)
Theorem full_table_rejects x x' w :
  wf (filt w) -> check x = Some x' ->
  item_fp x <> Some emptyFingerprint ->
  occupancy (buckets (filt w)) = capacity (filt w) ->
  exists w',
    Insert rnd x w = Some (false, w')
    /\ count (filt w') = count (filt w)
    /\ occupancy (buckets (filt w')) = capacity (filt w')
    /\ Z.of_nat (swaps w') - Z.of_nat (swaps w) = maxKicks (filt w).
Proof.
  intros Hwf Hc Hnz Hfull. pose proof (wf_kicks _ Hwf) as Hk.
  unfold Insert. rewrite Hc.
  destruct (insert_total rnd x' w Hwf)
    as (ok & w' & Hrun & Hwf' & (F1 & F2 & F3) & Hcnt & Hsw & Hfalse & Hocc).
  destruct (locate_wf x' _ Hwf) as (fp & i1 & i2 & Hloc & _).
  assert (Hfp : fp <> emptyFingerprint).
  { intros ->. apply Hnz. exact (item_fp_locate x x' _ _ _ _ Hc Hloc). }
  specialize (Hocc fp i1 i2 Hloc Hfp).
  pose proof (occupancy_bound _ _ (wf_slots _ Hwf')) as Hb.
  rewrite (wf_buckets _ Hwf') in Hb.
  assert (Hcap : capacity (filt w') = capacity (filt w))
    by (unfold capacity; rewrite F1, F2; reflexivity).
  unfold capacity in *.
  destruct ok.
  - exfalso. rewrite F1, F2 in Hb. lia.
  - exists w'. split; [exact Hrun|]. split; [exact Hcnt|].
    split; [rewrite F1, F2; lia|].
    specialize (Hfalse eq_refl). lia.
Qed.

End Contents.

Lemma insert_invents_nothing_witness :
  slots_all (fun s => s = 29344 \/ In s [58217; 62543; 60981; 38554])
    (filt (mkWorld (mkFilter 4 [[58217; 62543; 60981; 38554]] 4 1 500)
                   [xe3; x69] 501 500)).
Proof.
  apply (insert_invents_nothing rnd0 _ item_e full1 false _ 29344).
  - exact wf_full1.
  - vm_compute. reflexivity.
  - left. reflexivity.
  - repeat constructor; right; simpl; tauto.
  - vm_compute. reflexivity.
Defined.

Lemma slots_stay_uint16_witness :
  slots_all (fun s => 0 <= s < 2 ^ 16) (filt full1).
Proof.
  apply (slots_stay_uint16 rnd0 1 4
           [OpInsert item_a; OpInsert item_b; OpInsert item_c; OpInsert item_d]
           [true; true; true; true] full1); [lia|lia|].
  vm_compute. reflexivity.
Defined.

Lemma full_table_rejects_witness :
  exists w',
    Insert rnd0 item_e full1 = Some (false, w')
    /\ count (filt w') = count (filt full1)
    /\ occupancy (buckets (filt w')) = capacity (filt w')
    /\ Z.of_nat (swaps w') - Z.of_nat (swaps full1) = maxKicks (filt full1).
Proof.
  apply (full_table_rejects rnd0 item_e [x00; x65] full1);
    [exact wf_full1|reflexivity|vm_compute; discriminate|reflexivity].
Defined.

(** ** Edges *)

(** X19: [StdFilter] is a well-formed, empty filter of 2^22 buckets of four
    slots, 16777216 slots in all, with the kick bound 500. *)
Theorem StdFilter_shape :
  wf StdFilter
  /\ totalBuckets StdFilter = 2 ^ 22 /\ bucketSize StdFilter = 4
  /\ maxKicks StdFilter = 500 /\ count StdFilter = 0
  /\ occupancy (buckets StdFilter) = 0 /\ capacity StdFilter = 16777216.
Proof.
  split; [exact wf_StdFilter|].
  split; [reflexivity|]. split; [reflexivity|]. split; [reflexivity|].
  split; [reflexivity|]. split; [apply occupancy_initBuckets|reflexivity].
Qed.

Section Edges.

Context {H : Hash32}.
Variable rnd : nat -> Z.

(** X20: one relocation step on a well-formed filter: [replaceItem] writes
    the incoming fingerprint into the slot that rand.Intn picks in bucket
    [i], returns the fingerprint that stood there, changes no other slot,
    and computes the index it returns from [i] and the hash of the
    incoming fingerprint, whatever the evicted one is. *)
Theorem replaceItem_step i fp w :
  wf (filt w) -> 0 <= i < totalBuckets (filt w) ->
  exists b rfp,
    buckets (filt w) !! Z.to_nat i = Some b
    /\ b !! Z.to_nat (rnd (draws w) mod bucketSize (filt w)) = Some rfp
    /\ replaceItem rnd i fp w =
       Some ((Z.lxor i (sum32 (be_put_uint16 fp)) mod totalBuckets (filt w), rfp),
             after_swap i (Z.to_nat (rnd (draws w) mod bucketSize (filt w))) fp b w).
Proof.
  intros Hwf Hi.
  destruct (wf_index _ _ Hwf Hi) as (b & Hb & Hlen).
  pose proof (wf_size _ Hwf) as Hsz. pose proof (wf_total _ Hwf) as Htb.
  destruct (replaceItem_eq rnd i fp w b) as (rfp & Hr & Hrep);
    [lia|exact Hb|lia|lia|].
  rewrite Hlen in Hr, Hrep.
  exists b, rfp. split; [exact Hb|]. split; [exact Hr|exact Hrep].
Qed.

(** Over a bucket of no slots [replaceItem] asks rand.Intn for a number
    below 0 and panics. *)
Lemma replaceItem_empty i fp w :
  0 <= i -> buckets (filt w) !! Z.to_nat i = Some [] ->
  replaceItem rnd i fp w = None.
Proof.
  intros Hi Hb. unfold replaceItem. unfold bind at 1. simpl.
  erewrite bind_eq; [|apply bucketAt_eq; [exact Hi|exact Hb]].
  unfold bind at 1. unfold Intn. simpl. reflexivity.
Qed.

(** X21: the operations rely on the configuration: over a table of zero
    buckets every call on a non-empty item panics (the modulo in
    [indicesOf] divides by zero), and over buckets of zero slots Lookup and
    Delete return false while Insert panics in rand.Intn(0); the public
    constructors build no such filter. *)
Theorem degenerate_filters_panic x x' tb bs :
  check x = Some x' ->
  (Insert rnd x (initWorld (newFilter 0 bs)) = None
   /\ Lookup x (initWorld (newFilter 0 bs)) = None
   /\ Delete x (initWorld (newFilter 0 bs)) = None)
  /\ (0 < tb ->
      Lookup x (initWorld (newFilter tb 0))
        = Some (false, initWorld (newFilter tb 0))
      /\ Delete x (initWorld (newFilter tb 0))
        = Some (false, initWorld (newFilter tb 0))
      /\ Insert rnd x (initWorld (newFilter tb 0)) = None).
Proof.
  intros Hc. split.
  - unfold Insert, Lookup, Delete. rewrite Hc.
    unfold insert, lookup, deleteItem, fingerprintOf, hashOf, indicesOf. simpl.
    repeat split.
  - intros Htb.
    set (w := initWorld (newFilter tb 0)).
    assert (Htb' : totalBuckets (filt w) = tb) by reflexivity.
    assert (Hloc : exists fp i1 i2, locate x' (filt w) = Some (fp, i1, i2)
                     /\ 0 <= i1 < tb /\ 0 <= i2 < tb).
    { unfold locate, fingerprintOf, hashOf, indicesOf. simpl.
      destruct (tb =? 0) eqn:E; [apply Z.eqb_eq in E; lia|].
      eexists _, _, _. split; [reflexivity|].
      split; apply Z.mod_pos_bound; lia. }
    destruct Hloc as (fp & i1 & i2 & Hloc & Hi1 & Hi2).
    assert (Hemp : forall i, 0 <= i < tb -> buckets (filt w) !! Z.to_nat i = Some []).
    { intros i Hi. simpl. unfold initBuckets. apply lookup_replicate.
      split; [reflexivity|lia]. }
    unfold Lookup, Delete, Insert. rewrite Hc.
    split; [|split].
    + rewrite (lookup_eq x' w fp i1 i2 [] [] Hloc (proj1 Hi1) (proj1 Hi2)
                 (Hemp i1 Hi1) (Hemp i2 Hi2)). reflexivity.
    + apply (deleteItem_none x' w fp i1 i2 [] [] Hloc (proj1 Hi1) (proj1 Hi2)
               (Hemp i1 Hi1) (Hemp i2 Hi2)); reflexivity.
    + rewrite (insert_evict rnd x' w fp i1 i2 [] [] Hloc (proj1 Hi1) (proj1 Hi2)
                 (Hemp i1 Hi1) (Hemp i2 Hi2) eq_refl eq_refl).
      unfold bind at 1. unfold bind at 1.
      rewrite (Intn_eq rnd 2 w) by lia.
      set (ri := if rnd (draws w) mod 2 =? 0 then i1 else i2).
      assert (Hri : 0 <= ri < tb) by (unfold ri; destruct (_ =? 0); assumption).
      change (Z.to_nat (maxKicks (filt w))) with 500%nat.
      change 500%nat with (S 499). simpl insert_loop.
      unfold bind at 1.
      rewrite (replaceItem_empty ri fp (after_draw w) (proj1 Hri) (Hemp ri Hri)).
      reflexivity.
Qed.

End Edges.

Lemma replaceItem_step_witness :
  exists b rfp,
    buckets (filt full1) !! Z.to_nat 0 = Some b
    /\ b !! Z.to_nat (rnd0 (draws full1) mod bucketSize (filt full1)) = Some rfp
    /\ replaceItem rnd0 0 29344 full1 =
       Some ((Z.lxor 0 (sum32 (be_put_uint16 29344)) mod totalBuckets (filt full1), rfp),
             after_swap 0 (Z.to_nat (rnd0 (draws full1) mod bucketSize (filt full1)))
               29344 b full1).
Proof.
  apply (replaceItem_step rnd0 0 29344 full1); [exact wf_full1|].
  simpl. lia.
Defined.

Lemma degenerate_filters_panic_witness :
  (Insert rnd0 item_a (initWorld (newFilter 0 4)) = None
   /\ Lookup item_a (initWorld (newFilter 0 4)) = None
   /\ Delete item_a (initWorld (newFilter 0 4)) = None)
  /\ (0 < 2 ->
      Lookup item_a (initWorld (newFilter 2 0))
        = Some (false, initWorld (newFilter 2 0))
      /\ Delete item_a (initWorld (newFilter 2 0))
        = Some (false, initWorld (newFilter 2 0))
      /\ Insert rnd0 item_a (initWorld (newFilter 2 0)) = None).
Proof. apply (degenerate_filters_panic rnd0 item_a item_0a 2 4). reflexivity. Defined.

(** ** The fingerprint the operations use *)

Section Digest.

Context {H : Hash32}.
Variable rnd : nat -> Z.

Lemma locate_digest {HR : Hash32Range H} x f :
  0 < totalBuckets f ->
  locate x f = Some (digest_fp x, digest_i1 x f, digest_i2 x f).
Proof.
  intros Htb. unfold locate, fingerprintOf, hashOf, indicesOf. simpl.
  rewrite (be_uint16_high (sum32 x) (sum32_range x)).
  destruct (totalBuckets f =? 0) eqn:E; [apply Z.eqb_eq in E; lia|].
  reflexivity.
Qed.

(** C3 (amended): the fingerprint that Insert, Lookup and Delete use for a
    non-empty item (a single byte padded with a zero byte on the left before
    hashing) is the upper half of the 32-bit digest of the item, that is the
    big-endian 16-bit value of the first two bytes of the digest, and its
    hash is the digest of those two bytes: Lookup scans the two candidate
    buckets for that value, Delete clears the first slot that holds it, and
    Insert writes it into the first empty slot, or hands it to the eviction
    loop when both buckets are full. *)
Theorem fingerprint_is_digest_high_half {HR : Hash32Range H} x x' w :
  wf (filt w) -> check x = Some x' ->
  fingerprintOf (hashOf x').2 =
    Some (Z.shiftr (sum32 x') 16,
          sum32 [byte_of (Z.shiftr (sum32 x') 24); byte_of (Z.shiftr (sum32 x') 16)])
  /\ item_fp x = Some (Z.shiftr (sum32 x') 16)
  /\ Lookup x w =
       Some (containsIn (bucket_of (filt w) (digest_i1 x' (filt w))) (digest_fp x')
             || containsIn (bucket_of (filt w) (digest_i2 x' (filt w))) (digest_fp x'),
             w)
     /\ Delete x w =
        Some (if containsIn (bucket_of (filt w) (digest_i1 x' (filt w))) (digest_fp x')
              then (true,
                    with_count (wrap32 (count (filt w) - 1))
                      (with_bucket (digest_i1 x' (filt w))
                         (deleteFrom (bucket_of (filt w) (digest_i1 x' (filt w)))
                                     (digest_fp x')).2 w))
              else if containsIn (bucket_of (filt w) (digest_i2 x' (filt w)))
                        (digest_fp x')
              then (true,
                    with_count (wrap32 (count (filt w) - 1))
                      (with_bucket (digest_i2 x' (filt w))
                         (deleteFrom (bucket_of (filt w) (digest_i2 x' (filt w)))
                                     (digest_fp x')).2 w))
              else (false, w))
     /\ Insert rnd x w =
        if containsIn (bucket_of (filt w) (digest_i1 x' (filt w))) emptyFingerprint
        then Some (true,
                   with_count (wrap32 (count (filt w) + 1))
                     (with_bucket (digest_i1 x' (filt w))
                        (addToBucket (bucket_of (filt w) (digest_i1 x' (filt w)))
                                     (digest_fp x')).2 w))
        else if containsIn (bucket_of (filt w) (digest_i2 x' (filt w))) emptyFingerprint
        then Some (true,
                   with_count (wrap32 (count (filt w) + 1))
                     (with_bucket (digest_i2 x' (filt w))
                        (addToBucket (bucket_of (filt w) (digest_i2 x' (filt w)))
                                     (digest_fp x')).2 w))
        else (let* ok := (let* r := Intn rnd 2 in
                          insert_loop rnd (Z.to_nat (maxKicks (filt w)))
                            (if r =? 0 then digest_i1 x' (filt w)
                             else digest_i2 x' (filt w))
                            (digest_fp x')) in
              let* _ := bump 1 ok in
              ret ok) w.
Proof.
  intros Hwf Hc.
  assert (E : fingerprintOf (hashOf x').2 =
    Some (Z.shiftr (sum32 x') 16,
          sum32 [byte_of (Z.shiftr (sum32 x') 24); byte_of (Z.shiftr (sum32 x') 16)])).
  { unfold fingerprintOf, hashOf. simpl.
    rewrite (be_uint16_high (sum32 x') (sum32_range x')). reflexivity. }
  split; [exact E|]. split; [unfold item_fp; rewrite Hc, E; reflexivity|].
  pose proof (locate_digest x' (filt w) (wf_total _ Hwf)) as Hloc.
  destruct (locate_wf x' _ Hwf) as (fp' & j1 & j2 & Hloc' & Hi1 & Hi2).
  rewrite Hloc in Hloc'. injection Hloc' as <- <- <-.
  destruct (wf_index _ _ Hwf Hi1) as (b1 & Hb1 & _).
  destruct (wf_index _ _ Hwf Hi2) as (b2 & Hb2 & _).
  rewrite (bucket_of_lookup _ _ _ Hb1), (bucket_of_lookup _ _ _ Hb2).
  unfold Lookup, Delete, Insert. rewrite Hc.
  split; [|split].
  - exact (lookup_eq x' w _ _ _ b1 b2 Hloc (proj1 Hi1) (proj1 Hi2) Hb1 Hb2).
  - destruct (containsIn b1 (digest_fp x')) eqn:Hc1;
      [|destruct (containsIn b2 (digest_fp x')) eqn:Hc2].
    + exact (deleteItem_first x' w _ _ _ b1 Hloc (proj1 Hi1) Hb1 Hc1).
    + exact (deleteItem_second x' w _ _ _ b1 b2 Hloc (proj1 Hi1) (proj1 Hi2)
               Hb1 Hb2 Hc1 Hc2).
    + exact (deleteItem_none x' w _ _ _ b1 b2 Hloc (proj1 Hi1) (proj1 Hi2)
               Hb1 Hb2 Hc1 Hc2).
  - destruct (containsIn b1 emptyFingerprint) eqn:Hc1;
      [|destruct (containsIn b2 emptyFingerprint) eqn:Hc2].
    + exact (insert_first rnd x' w _ _ _ b1 Hloc (proj1 Hi1) Hb1 Hc1).
    + exact (insert_second rnd x' w _ _ _ b1 b2 Hloc (proj1 Hi1) (proj1 Hi2)
               Hb1 Hb2 Hc1 Hc2).
    + exact (insert_evict rnd x' w _ _ _ b1 b2 Hloc (proj1 Hi1) (proj1 Hi2)
               Hb1 Hb2 Hc1 Hc2).
Qed.

End Digest.

Lemma fingerprint_is_digest_high_half_witness :
  fingerprintOf (hashOf item_ab).2 =
    Some (Z.shiftr (sum32 item_ab) 16,
          sum32 [byte_of (Z.shiftr (sum32 item_ab) 24); byte_of (Z.shiftr (sum32 item_ab) 16)])
  /\ item_fp item_ab = Some (Z.shiftr (sum32 item_ab) 16)
  /\ Lookup item_ab fresh1 =
       Some (containsIn (bucket_of (filt fresh1) (digest_i1 item_ab (filt fresh1))) (digest_fp item_ab)
             || containsIn (bucket_of (filt fresh1) (digest_i2 item_ab (filt fresh1))) (digest_fp item_ab),
             fresh1)
     /\ Delete item_ab fresh1 =
        Some (if containsIn (bucket_of (filt fresh1) (digest_i1 item_ab (filt fresh1))) (digest_fp item_ab)
              then (true,
                    with_count (wrap32 (count (filt fresh1) - 1))
                      (with_bucket (digest_i1 item_ab (filt fresh1))
                         (deleteFrom (bucket_of (filt fresh1) (digest_i1 item_ab (filt fresh1)))
                                     (digest_fp item_ab)).2 fresh1))
              else if containsIn (bucket_of (filt fresh1) (digest_i2 item_ab (filt fresh1)))
                        (digest_fp item_ab)
              then (true,
                    with_count (wrap32 (count (filt fresh1) - 1))
                      (with_bucket (digest_i2 item_ab (filt fresh1))
                         (deleteFrom (bucket_of (filt fresh1) (digest_i2 item_ab (filt fresh1)))
                                     (digest_fp item_ab)).2 fresh1))
              else (false, fresh1))
     /\ Insert rnd0 item_ab fresh1 =
        if containsIn (bucket_of (filt fresh1) (digest_i1 item_ab (filt fresh1))) emptyFingerprint
        then Some (true,
                   with_count (wrap32 (count (filt fresh1) + 1))
                     (with_bucket (digest_i1 item_ab (filt fresh1))
                        (addToBucket (bucket_of (filt fresh1) (digest_i1 item_ab (filt fresh1)))
                                     (digest_fp item_ab)).2 fresh1))
        else if containsIn (bucket_of (filt fresh1) (digest_i2 item_ab (filt fresh1))) emptyFingerprint
        then Some (true,
                   with_count (wrap32 (count (filt fresh1) + 1))
                     (with_bucket (digest_i2 item_ab (filt fresh1))
                        (addToBucket (bucket_of (filt fresh1) (digest_i2 item_ab (filt fresh1)))
                                     (digest_fp item_ab)).2 fresh1))
        else (let* ok := (let* r := Intn rnd0 2 in
                          insert_loop rnd0 (Z.to_nat (maxKicks (filt fresh1)))
                            (if r =? 0 then digest_i1 item_ab (filt fresh1)
                             else digest_i2 item_ab (filt fresh1))
                            (digest_fp item_ab)) in
              let* _ := bump 1 ok in
              ret ok) fresh1.
Proof.
  apply (fingerprint_is_digest_high_half rnd0 item_ab item_ab fresh1);
    [exact wf_fresh1|reflexivity].
Defined.

(** C3, as stated, fails: the first two bytes of "ab" read 24930 as a
    big-endian number and the padded "a" reads 97, but Insert("ab") into
    the fresh one-bucket filter stores 17275, the upper half of the digest
    1132148892, and Insert("a") stores 58217; Lookup and Delete find and
    clear those values.  After Insert("vej"), whose digest 1633873140 makes
    the slot hold 24930, Lookup("ab") and Delete("ab") return false. *)
Lemma fingerprint_is_not_item_prefix :
  spec_fingerprint item_ab = Some 24930 /\ spec_fingerprint item_a = Some 97
  /\ outcome (let* i := Insert rnd0 item_ab in
              let* f1 := getFilter in
              let* l := Lookup item_ab in
              let* d := Delete item_ab in
              let* f2 := getFilter in
              ret (i, buckets f1, l, d, buckets f2)) fresh1
     = Some (true, [[17275; 0; 0; 0]], true, true, [[0; 0; 0; 0]])
  /\ outcome (let* i := Insert rnd0 item_a in
              let* f1 := getFilter in
              let* l := Lookup item_a in
              let* d := Delete item_a in
              let* f2 := getFilter in
              ret (i, buckets f1, l, d, buckets f2)) fresh1
     = Some (true, [[58217; 0; 0; 0]], true, true, [[0; 0; 0; 0]])
  /\ outcome (let* i := Insert rnd0 item_vej in
              let* f1 := getFilter in
              let* l := Lookup item_ab in
              let* d := Delete item_ab in
              let* f2 := getFilter in
              ret (i, buckets f1, l, d, buckets f2)) fresh1
     = Some (true, [[24930; 0; 0; 0]], false, false, [[24930; 0; 0; 0]]).
Proof. vm_compute. repeat split. Qed.
